(** * A command-line client of a catalog service (app.py)

    The client builds a request for one of seven catalog operations, sends it
    through the [requests] library, reads the status of the response and
    prints either the decoded entities or an error line.  A menu loop reads
    the operator's choices.

    The development follows the program: Python values and exceptions, the
    request classes and their factory, the adapters that print an entity, the
    observer classes, the seven API functions and the menu loop.  Effects
    (standard output, standard input, the calls to the transport and to the
    JSON decoder) are threaded through a state-and-exception monad that
    records them in a trace.

    Text is kept as strings of 8-bit characters; a character outside ASCII
    is the bytes of its UTF-8 encoding. *)

From Stdlib Require Import ZArith Lia Ascii.
From stdpp Require Import base decidable option list relations strings pretty.

Local Open Scope Z_scope.
Set Warnings "-register-all".

(** ** Python values *)

(** The values the program handles: what [json.loads] can return and what the
    operator types.  A dict is kept as its items in insertion order.  A float
    is kept as a decimal literal that denotes it: the program never computes
    with a float, it only forwards it to the transport or formats it. *)
Inductive value : Type :=
  | VNone
  | VBool (b : bool)
  | VInt (n : Z)
  | VFloat (literal : string)
  | VStr (s : string)
  | VList (elements : list value)
  | VDict (items : list (string * value)).

(** The exceptions that the program can meet.  [RequestException] stands for
    any failure of the transport to produce a response. *)
Inductive exn : Type :=
  | KeyError (key : string)
  | TypeError
  | ValueError
  | AttributeError
  | EOFError
  | JSONDecodeError
  | RequestException.

(** The result of evaluating a Python expression or statement. *)
Inductive outcome (A : Type) : Type :=
  | Ok (a : A)
  | Raise (e : exn).
Arguments Ok {A} a.
Arguments Raise {A} e.

(** [d[key]] on the items of a dict. *)
Fixpoint dict_get (key : string) (items : list (string * value)) : option value :=
  match items with
  | [] => None
  | (k, v) :: rest => if String.eqb k key then Some v else dict_get key rest
  end.

(** [v[key]] for a string key: only a dict can be subscripted by a string. *)
Definition subscript (v : value) (key : string) : outcome value :=
  match v with
  | VDict items =>
      match dict_get key items with
      | Some x => Ok x
      | None => Raise (KeyError key)
      end
  | _ => Raise TypeError
  end.

(** The characters of a string, each as a string of length one. *)
Fixpoint characters (s : string) : list value :=
  match s with
  | EmptyString => []
  | String c rest => VStr (String c EmptyString) :: characters rest
  end.

(** The elements that [for x in v] visits: the elements of a list, the keys of
    a dict, the characters of a string; other values are not iterable. *)
Definition iterate (v : value) : outcome (list value) :=
  match v with
  | VList elements => Ok elements
  | VDict items => Ok (map (fun kv => VStr (fst kv)) items)
  | VStr s => Ok (characters s)
  | _ => Raise TypeError
  end.

(** ** The transport: the [requests] library *)

Inductive http_method : Type := GET | POST | PATCH | DELETE.

(** The four entry points of [requests] that the program calls. *)
Inductive transport_call : Type :=
  | requests_get (url : string)
  | requests_post (url : string) (json : value)
  | requests_patch (url : string) (json : value)
  | requests_delete (url : string).

Definition call_method (c : transport_call) : http_method :=
  match c with
  | requests_get _ => GET
  | requests_post _ _ => POST
  | requests_patch _ _ => PATCH
  | requests_delete _ => DELETE
  end.

Definition call_url (c : transport_call) : string :=
  match c with
  | requests_get url | requests_post url _
  | requests_patch url _ | requests_delete url => url
  end.

(** The body a call carries: [json=None] sends no body. *)
Definition call_payload (c : transport_call) : option value :=
  match c with
  | requests_post _ VNone | requests_patch _ VNone => None
  | requests_post _ json | requests_patch _ json => Some json
  | requests_get _ | requests_delete _ => None
  end.

Record response : Type := { status_code : Z; content : string }.

(** [Response.ok] of [requests]: true unless [raise_for_status()] would raise,
    which it does for the client errors 400..499 and the server errors
    500..599. *)
Definition ok (r : response) : bool :=
  negb ((400 <=? status_code r) && (status_code r <? 600)).

Definition is_2xx (code : Z) : bool := (200 <=? code) && (code <? 300).

(** ** The request classes and their factory *)

Definition BASE_URL : string := "http://localhost:5000/".

Inductive request : Type :=
  | GetRequest (url : string)
  | PostRequest (url : string) (data : value)
  | PatchRequest (url : string) (data : value)
  | DeleteRequest (url : string).

(** [APIRequestFactory.create_request(url, method, data=None)]; a method that
    is none of the four falls through every branch and gives [None]. *)
Definition create_request (url method : string) (data : value) : option request :=
  if String.eqb method "GET" then Some (GetRequest url)
  else if String.eqb method "POST" then Some (PostRequest url data)
  else if String.eqb method "PATCH" then Some (PatchRequest url data)
  else if String.eqb method "DELETE" then Some (DeleteRequest url)
  else None.

(** The [send] method of each class, as the call it makes. *)
Definition send_call (r : request) : transport_call :=
  match r with
  | GetRequest url => requests_get url
  | PostRequest url data => requests_post url data
  | PatchRequest url data => requests_patch url data
  | DeleteRequest url => requests_delete url
  end.

Definition request_url (r : request) : string :=
  match r with
  | GetRequest url | PostRequest url _ | PatchRequest url _ | DeleteRequest url => url
  end.

Definition request_method (r : request) : http_method := call_method (send_call r).

Definition request_payload (r : request) : option value := call_payload (send_call r).

Definition method_name (m : http_method) : string :=
  match m with
  | GET => "GET"
  | POST => "POST"
  | PATCH => "PATCH"
  | DELETE => "DELETE"
  end.

(** ** [float(text)] on what the operator typed *)

(** The syntax that [float] accepts in a text of ASCII characters: underscores may stand
    between two digits; blanks around the literal are dropped; the literal is
    an optional sign followed by [inf], [infinity] or [nan] in any case, or by
    digits with an optional point and an optional exponent.  Anything else is
    a [ValueError]. *)

Definition is_digit (c : ascii) : bool :=
  let n := nat_of_ascii c in ((48 <=? n) && (n <=? 57))%nat.

Fixpoint is_ascii (s : string) : bool :=
  match s with
  | EmptyString => true
  | String c rest => (nat_of_ascii c <? 128)%nat && is_ascii rest
  end.

Definition is_blank (c : ascii) : bool :=
  let n := nat_of_ascii c in (((9 <=? n) && (n <=? 13)) || (n =? 32))%nat.

Definition lower (c : ascii) : ascii :=
  let n := nat_of_ascii c in
  if ((65 <=? n) && (n <=? 90))%nat then ascii_of_nat (n + 32) else c.

Fixpoint lowercase (s : string) : string :=
  match s with
  | EmptyString => EmptyString
  | String c rest => String (lower c) (lowercase rest)
  end.

(** Copies [s] without its underscores; [None] when an underscore does not
    follow a digit, or is not followed by one.  [prev] is the character before
    [s], if any. *)
Fixpoint without_underscores (prev : option ascii) (s : string) : option string :=
  match s with
  | EmptyString =>
      if bool_decide (prev = Some "_"%char) then None else Some EmptyString
  | String c rest =>
      if bool_decide (c = "_"%char) then
        match prev with
        | Some d => if is_digit d then without_underscores (Some c) rest else None
        | None => None
        end
      else if bool_decide (prev = Some "_"%char) && negb (is_digit c) then None
      else String c <$> without_underscores (Some c) rest
  end.

Fixpoint lstrip (s : string) : string :=
  match s with
  | String c rest => if is_blank c then lstrip rest else s
  | EmptyString => EmptyString
  end.

Definition strip (s : string) : string :=
  String.rev (lstrip (String.rev (lstrip s))).

(** Skips the digits at the head of [s]: how many there were, and the rest. *)
Fixpoint skip_digits (s : string) : nat * string :=
  match s with
  | String c rest =>
      if is_digit c then let (n, r) := skip_digits rest in (S n, r) else (O, s)
  | EmptyString => (O, EmptyString)
  end.

Definition skip_sign (s : string) : string :=
  match s with
  | String c rest =>
      if bool_decide (c = "+"%char) || bool_decide (c = "-"%char) then rest else s
  | EmptyString => s
  end.

Definition is_exponent (s : string) : bool :=
  match s with
  | EmptyString => true
  | String c rest =>
      if bool_decide (lower c = "e"%char) then
        let (n, r) := skip_digits (skip_sign rest) in
        negb (n =? 0)%nat && bool_decide (r = EmptyString)
      else false
  end.

Definition is_float_literal (s : string) : bool :=
  let body := skip_sign s in
  let word := lowercase body in
  if bool_decide (word = "inf") || bool_decide (word = "infinity")
     || bool_decide (word = "nan") then true
  else
    let (n, r) := skip_digits body in
    match r with
    | String "." r' =>
        let (m, r'') := skip_digits r' in
        negb (n + m =? 0)%nat && is_exponent r''
    | _ => negb (n =? 0)%nat && is_exponent r
    end.

(** [float(text)] for a text of ASCII characters. *)
Definition float_of_ascii (text : string) : outcome value :=
  match without_underscores None text with
  | Some t =>
      let literal := strip t in
      if is_float_literal literal then Ok (VFloat literal) else Raise ValueError
  | None => Raise ValueError
  end.

(** ** Effects *)

(** What the program does to the outside, in the order it does it. *)
Inductive event : Type :=
  | EvPrint (line : string)
  | EvPrompt (prompt : string)
  | EvRequest (call : transport_call)
  | EvJsonLoads (body : string).

(** The lines written by [print] in a trace. *)
Fixpoint printed (t : list event) : list string :=
  match t with
  | [] => []
  | EvPrint line :: rest => line :: printed rest
  | _ :: rest => printed rest
  end.

(** The state the program runs in: the remote service behind the transport,
    the lines still to be read from standard input, and the trace so far. *)
Record world (server : Type) : Type :=
  { remote : server; stdin : list string; trace : list event }.
Arguments remote {server} w.
Arguments stdin {server} w.
Arguments trace {server} w.

(** Simple collaborators, for running the program on concrete inputs: a
    service that answers every call with the same response, a decoder that
    gives the same value for every body, a [repr] that shows the literal of a
    float, and a world with nothing printed yet. *)
Definition replying (r : response) : transport_call -> unit -> outcome response * unit :=
  fun _ _ => (Ok r, tt).

Definition decoding_to (v : value) : string -> outcome value := fun _ => Ok v.

Definition literal_repr (v : value) : string :=
  match v with
  | VFloat literal => literal
  | _ => "..."
  end.

Definition start (lines : list string) : world unit :=
  {| remote := tt; stdin := lines; trace := [] |}.

(** Sample responses and entities. *)
Definition not_found : response := {| status_code := 404; content := "Not Found" |}.

Definition multiple_choices : response :=
  {| status_code := 300; content := "the category, as JSON" |}.

Definition created : response :=
  {| status_code := 201; content := "the new category, as JSON" |}.

Definition found : response :=
  {| status_code := 200; content := "the products, as JSON" |}.

Definition books : value :=
  VDict [("id", VInt 3); ("title", VStr "Books"); ("description", VStr "Novels and essays")].

Definition new_category : value :=
  VDict [("id", VInt 7); ("title", VStr "X"); ("description", VStr "Y")].

Definition pen : value :=
  VDict [("id", VInt 1); ("name", VStr "Pen"); ("price", VFloat "1.5");
         ("description", VStr "Blue ink")].

Definition ink : value :=
  VDict [("id", VInt 2); ("name", VStr "Ink"); ("price", VInt 4);
         ("description", VStr "One bottle")].

(** More of them: a service that cannot be reached, a decoder that rejects
    every body, and entities that lack a field. *)
Definition unreachable : transport_call -> unit -> outcome response * unit :=
  fun _ _ => (Raise RequestException, tt).

Definition undecodable : string -> outcome value := fun _ => Raise JSONDecodeError.

Definition untitled : value :=
  VDict [("id", VInt 5); ("description", VStr "No title")].

Definition undescribed_category : value := VDict [("id", VInt 4); ("title", VStr "Toys")].

Definition undescribed_product : value :=
  VDict [("id", VInt 6); ("name", VStr "Cap"); ("price", VInt 2)].

Definition acknowledged : value := VDict [("status", VStr "created")].

(** A [float] for runs whose input is ASCII, where it is not asked about any
    other text. *)
Definition no_other_text : string -> option string := fun _ => None.


Section Client.

(** The collaborators of the program, which it does not define: the remote
    service reached through [requests], the decoder [json.loads], and
    [repr] for the values whose text the program does not fix itself
    (floats, lists and dicts). *)
Context {server : Type}.
Variable transport : transport_call -> server -> outcome response * server.
Variable json_loads : string -> outcome value.
Variable py_repr : value -> string.

(** A computation reads and extends the world and returns or raises. *)
Definition M (A : Type) : Type := world server -> outcome A * world server.

#[export] Instance M_ret : MRet M := fun A a w => (Ok a, w).
#[export] Instance M_bind : MBind M := fun A B f m w =>
  match m w with
  | (Ok a, w') => f a w'
  | (Raise e, w') => (Raise e, w')
  end.

Definition raise {A : Type} (e : exn) : M A := fun w => (Raise e, w).

Definition lift {A : Type} (o : outcome A) : M A := fun w => (o, w).

Definition emit (ev : event) : M unit := fun w =>
  (Ok tt, {| remote := remote w; stdin := stdin w; trace := trace w ++ [ev] |}).

(** [print(line)]. *)
Definition print (line : string) : M unit := emit (EvPrint line).

(** [input(prompt)]: writes the prompt and reads one line; at the end of the
    input it raises [EOFError]. *)
Definition input (prompt : string) : M string := fun w =>
  let t := trace w ++ [EvPrompt prompt] in
  match stdin w with
  | [] => (Raise EOFError, {| remote := remote w; stdin := []; trace := t |})
  | line :: rest => (Ok line, {| remote := remote w; stdin := rest; trace := t |})
  end.

(** One call to [requests]. *)
Definition perform (c : transport_call) : M response := fun w =>
  let (o, s) := transport c (remote w) in
  (o, {| remote := s; stdin := stdin w; trace := trace w ++ [EvRequest c] |}).

(** [request.send()], where [request] is what the factory returned. *)
Definition send (r : option request) : M response :=
  match r with
  | Some r => perform (send_call r)
  | None => raise AttributeError
  end.

(** [json.loads(body)]. *)
Definition loads (body : string) : M value :=
  emit (EvJsonLoads body);; lift (json_loads body).

(** [str(v)], which [print] and the f-strings apply. *)
Definition py_str (v : value) : string :=
  match v with
  | VStr s => s
  | VInt n => pretty n
  | VBool true => "True"
  | VBool false => "False"
  | VNone => "None"
  | VFloat _ | VList _ | VDict _ => py_repr v
  end.

(** [for x in v: body(x)]. *)
Fixpoint for_each {A : Type} (body : A -> M unit) (l : list A) : M unit :=
  match l with
  | [] => mret tt
  | x :: rest => body x;; for_each body rest
  end.

Definition for_in (v : value) (body : value -> M unit) : M unit :=
  l ← lift (iterate v); for_each body l.

(** ** The adapters *)

(** [CategoryAdapter(category).display()]. *)
Definition CategoryAdapter_display (category : value) : M unit :=
  title ← lift (subscript category "title");
  id ← lift (subscript category "id");
  print (py_str title +:+ " (ID: " +:+ py_str id +:+ ")");;
  description ← lift (subscript category "description");
  print (py_str description).

(** [CategoryDecorator(category).display()], for a wrapped object whose
    [display] is [inner]. *)
Definition CategoryDecorator_additional_info : M unit :=
  print "Additional information...".

Definition CategoryDecorator_display (inner : M unit) : M unit :=
  inner;; CategoryDecorator_additional_info.

(** [ProductAdapter(product).display()]. *)
Definition ProductAdapter_display (product : value) : M unit :=
  name ← lift (subscript product "name");
  id ← lift (subscript product "id");
  price ← lift (subscript product "price");
  print (py_str name +:+ " (ID: " +:+ py_str id +:+ ", Price: " +:+ py_str price +:+ ")");;
  description ← lift (subscript product "description");
  print (py_str description).

(** ** The observer classes *)

(** [CategoryObserver().update(category)]. *)
Definition CategoryObserver_update (category : value) : M unit :=
  title ← lift (subscript category "title");
  print ("Category updated: " +:+ py_str title).

Section Observers.

(** A listener is any object with an [update] method; two listeners are
    compared as [list.remove] compares them, by [==]. *)
Context {listener : Type} `{EqDecision listener}.
Variable update : listener -> value -> M unit.

Record ObservableCategory : Type := { observers : list listener }.

(** [ObservableCategory()]. *)
Definition ObservableCategory_init : ObservableCategory := {| observers := [] |}.

(** [self.observers.append(observer)]. *)
Definition attach (self : ObservableCategory) (observer : listener) : ObservableCategory :=
  {| observers := observers self ++ [observer] |}.

(** [l.remove(x)]: drops the first element equal to [x]; [None] when there
    is none, where Python raises [ValueError]. *)
Fixpoint list_remove (x : listener) (l : list listener) : option (list listener) :=
  match l with
  | [] => None
  | y :: rest =>
      if decide (y = x) then Some rest
      else match list_remove x rest with
           | Some rest' => Some (y :: rest')
           | None => None
           end
  end.

(** [self.observers.remove(observer)]. *)
Definition detach (self : ObservableCategory) (observer : listener)
  : outcome ObservableCategory :=
  match list_remove observer (observers self) with
  | Some l => Ok {| observers := l |}
  | None => Raise ValueError
  end.

(** [for observer in self.observers: observer.update(category)]. *)
Definition notify (self : ObservableCategory) (category : value) : M unit :=
  for_each (fun observer => update observer category) (observers self).

End Observers.

(** ** The API functions *)

(** [CategoryListStrategy(request).list_categories()]. *)
Definition CategoryListStrategy_list_categories (request : option request) : M unit :=
  response ← send request;
  if ok response then
    categories ← loads (content response);
    for_in categories (fun category =>
      CategoryAdapter_display category;;
      print "")
  else
    print ("Error fetching categories: " +:+ pretty (status_code response)).

(** [CategoryStrategyContext(strategy).list_categories()], for the strategy
    built on [request]. *)
Definition CategoryStrategyContext_list_categories (request : option request) : M unit :=
  CategoryListStrategy_list_categories request.

Definition list_categories : M unit :=
  let url := BASE_URL +:+ "/categories" in
  let request := create_request url "GET" VNone in
  CategoryStrategyContext_list_categories request.

Definition show_category (category_id : value) : M unit :=
  let url := BASE_URL +:+ "/categories/" +:+ py_str category_id in
  let request := create_request url "GET" VNone in
  response ← send request;
  if ok response then
    category ← loads (content response);
    CategoryAdapter_display category
  else
    print ("Error fetching category: " +:+ pretty (status_code response)).

Definition create_category (title description : value) : M unit :=
  let url := BASE_URL +:+ "/categories" in
  let data := VDict [("title", title); ("description", description)] in
  let request := create_request url "POST" data in
  response ← send request;
  if ok response then
    category ← loads (content response);
    id ← lift (subscript category "id");
    print ("Category created with ID: " +:+ py_str id)
  else
    print ("Error creating category: " +:+ pretty (status_code response)).

Definition delete_category (category_id : value) : M unit :=
  let url := BASE_URL +:+ "/categories/" +:+ py_str category_id in
  let request := create_request url "DELETE" VNone in
  response ← send request;
  if ok response then
    print "Category deleted"
  else
    print ("Error deleting category: " +:+ pretty (status_code response)).

Definition change_category_title (category_id new_title : value) : M unit :=
  let url := BASE_URL +:+ "/categories/" +:+ py_str category_id in
  let data := VDict [("title", new_title)] in
  let request := create_request url "PATCH" data in
  response ← send request;
  if ok response then
    print "Category title updated"
  else
    print ("Error updating category title: " +:+ pretty (status_code response)).

Definition create_product (category_id name price description : value) : M unit :=
  let url := BASE_URL +:+ "/categories/" +:+ py_str category_id +:+ "/products" in
  let data := VDict [("name", name); ("price", price); ("description", description)] in
  let request := create_request url "POST" data in
  response ← send request;
  if ok response then
    product ← loads (content response);
    id ← lift (subscript product "id");
    print ("Product created with ID: " +:+ py_str id)
  else
    print ("Error creating product: " +:+ pretty (status_code response)).

Definition list_products (category_id : value) : M unit :=
  let url := BASE_URL +:+ "/categories/" +:+ py_str category_id +:+ "/products" in
  let request := create_request url "GET" VNone in
  response ← send request;
  if ok response then
    products ← loads (content response);
    for_in products (fun product =>
      ProductAdapter_display product;;
      print "")
  else
    print ("Error fetching products: " +:+ pretty (status_code response)).

(** ** The menu loop *)

Inductive control : Type := Continue | Break.

(** What [float] makes of a text that has characters outside ASCII, where it
    also takes the decimal digits and the blanks of Unicode: a decimal literal
    for the float, or [None] where it raises [ValueError]. The tables of
    Unicode are not spelled out here. *)
Variable float_of_unicode : string -> option string.

(** [float(text)]. *)
Definition py_float (text : string) : outcome value :=
  if is_ascii text then float_of_ascii text
  else match float_of_unicode text with
       | Some literal => Ok (VFloat literal)
       | None => Raise ValueError
       end.

(** The chain of tests on the choice, and the branch taken. *)
Definition dispatch (choice : string) : M control :=
  if String.eqb choice "1" then
    list_categories;;
    mret Continue
  else if String.eqb choice "2" then
    category_id ← input "Enter category ID: ";
    show_category (VStr category_id);;
    mret Continue
  else if String.eqb choice "3" then
    title ← input "Enter category title: ";
    description ← input "Enter category description: ";
    create_category (VStr title) (VStr description);;
    mret Continue
  else if String.eqb choice "4" then
    category_id ← input "Enter category ID: ";
    delete_category (VStr category_id);;
    mret Continue
  else if String.eqb choice "5" then
    category_id ← input "Enter category ID: ";
    new_title ← input "Enter new category title: ";
    change_category_title (VStr category_id) (VStr new_title);;
    mret Continue
  else if String.eqb choice "6" then
    category_id ← input "Enter category ID: ";
    name ← input "Enter product name: ";
    text ← input "Enter product price: ";
    price ← lift (py_float text);
    description ← input "Enter product description: ";
    create_product (VStr category_id) (VStr name) price (VStr description);;
    mret Continue
  else if String.eqb choice "7" then
    category_id ← input "Enter category ID: ";
    list_products (VStr category_id);;
    mret Continue
  else if String.eqb choice "0" then
    mret Break
  else
    print "Invalid choice. Please try again.";;
    mret Continue.

(** One turn of [while True:]: the menu, the choice, the branch taken. *)
Definition iteration : M control :=
  print "1. List categories";;
  print "2. Show category details";;
  print "3. Create a category";;
  print "4. Delete a category";;
  print "5. Change category title";;
  print "6. Create a product";;
  print "7. List products in a category";;
  print "0. Exit";;
  choice ← input "Enter your choice: ";
  dispatch choice.

(** How the loop can end: by [break], by an exception that nothing catches,
    or, in this model only, because the turns allowed ran out. *)
Inductive ending : Type :=
  | Exited
  | Uncaught (e : exn)
  | OutOfFuel.

(** [while True:], for at most [fuel] turns. *)
Fixpoint main_loop (fuel : nat) (w : world server) : ending * world server :=
  match fuel with
  | O => (OutOfFuel, w)
  | S fuel' =>
      match iteration w with
      | (Ok Break, w') => (Exited, w')
      | (Ok Continue, w') => main_loop fuel' w'
      | (Raise e, w') => (Uncaught e, w')
      end
  end.

(** The program: every turn reads at least one line, so one turn more than
    there are lines is enough. *)
Definition main (w : world server) : ending * world server :=
  main_loop (S (length (stdin w))) w.

(** ** The catalog operations, as one family *)

Inductive operation : Type :=
  | ListCategories
  | ShowCategory (category_id : value)
  | CreateCategory (title description : value)
  | DeleteCategory (category_id : value)
  | ChangeCategoryTitle (category_id new_title : value)
  | CreateProduct (category_id name price description : value)
  | ListProducts (category_id : value).

Definition run (op : operation) : M unit :=
  match op with
  | ListCategories => list_categories
  | ShowCategory category_id => show_category category_id
  | CreateCategory title description => create_category title description
  | DeleteCategory category_id => delete_category category_id
  | ChangeCategoryTitle category_id new_title => change_category_title category_id new_title
  | CreateProduct category_id name price description =>
      create_product category_id name price description
  | ListProducts category_id => list_products category_id
  end.

(** The operations table of the specification: method, resource path and
    payload of each operation. *)
Definition table_method (op : operation) : http_method :=
  match op with
  | ListCategories | ShowCategory _ | ListProducts _ => GET
  | CreateCategory _ _ | CreateProduct _ _ _ _ => POST
  | DeleteCategory _ => DELETE
  | ChangeCategoryTitle _ _ => PATCH
  end.

Definition table_path (op : operation) : string :=
  match op with
  | ListCategories | CreateCategory _ _ => "/categories"
  | ShowCategory id | DeleteCategory id | ChangeCategoryTitle id _ =>
      "/categories/" +:+ py_str id
  | CreateProduct id _ _ _ | ListProducts id =>
      "/categories/" +:+ py_str id +:+ "/products"
  end.

Definition table_payload (op : operation) : value :=
  match op with
  | CreateCategory title description =>
      VDict [("title", title); ("description", description)]
  | ChangeCategoryTitle _ new_title => VDict [("title", new_title)]
  | CreateProduct _ name price description =>
      VDict [("name", name); ("price", price); ("description", description)]
  | _ => VNone
  end.

Definition table_call (op : operation) : transport_call :=
  let url := BASE_URL +:+ table_path op in
  match table_method op with
  | GET => requests_get url
  | POST => requests_post url (table_payload op)
  | PATCH => requests_patch url (table_payload op)
  | DELETE => requests_delete url
  end.

(** The error line of each operation, up to the status code. *)
Definition error_prefix (op : operation) : string :=
  match op with
  | ListCategories => "Error fetching categories: "
  | ShowCategory _ => "Error fetching category: "
  | CreateCategory _ _ => "Error creating category: "
  | DeleteCategory _ => "Error deleting category: "
  | ChangeCategoryTitle _ _ => "Error updating category title: "
  | CreateProduct _ _ _ _ => "Error creating product: "
  | ListProducts _ => "Error fetching products: "
  end.

Definition error_line (op : operation) (r : response) : string :=
  error_prefix op +:+ pretty (status_code r).

(** What an operation does with a response it takes for a success. *)
Definition on_success (op : operation) (r : response) : M unit :=
  match op with
  | ListCategories =>
      categories ← loads (content r);
      for_in categories (fun category => CategoryAdapter_display category;; print "")
  | ShowCategory _ =>
      category ← loads (content r);
      CategoryAdapter_display category
  | CreateCategory _ _ =>
      category ← loads (content r);
      id ← lift (subscript category "id");
      print ("Category created with ID: " +:+ py_str id)
  | DeleteCategory _ => print "Category deleted"
  | ChangeCategoryTitle _ _ => print "Category title updated"
  | CreateProduct _ _ _ _ =>
      product ← loads (content r);
      id ← lift (subscript product "id");
      print ("Product created with ID: " +:+ py_str id)
  | ListProducts _ =>
      products ← loads (content r);
      for_in products (fun product => ProductAdapter_display product;; print "")
  end.

(** The events of a run of [op] from [w], and those after its request. *)
Definition events_of (op : operation) (w : world server) : list event :=
  drop (length (trace w)) (trace (snd (run op w))).

Definition after_request (op : operation) (w : world server) : list event :=
  drop 1 (events_of op w).

(** An operation handles a response as a failure when all it does after the
    request is to print its error line with the status code. *)
Definition handled_as_failure (op : operation) (w : world server) (r : response) : Prop :=
  after_request op w = [EvPrint (error_line op r)].

Definition decodes (t : list event) : Prop := exists body, EvJsonLoads body ∈ t.

(** The fields of an entity and the text of its presentation. *)
Definition has_field (entity : value) (key : string) : Prop :=
  exists x, subscript entity key = Ok x.

Definition field (entity : value) (key : string) : value :=
  match subscript entity key with
  | Ok x => x
  | Raise _ => VNone
  end.

Definition is_category (c : value) : Prop :=
  has_field c "title" /\ has_field c "id" /\ has_field c "description".

Definition is_product (p : value) : Prop :=
  has_field p "name" /\ has_field p "id" /\ has_field p "price"
  /\ has_field p "description".

Definition category_lines (c : value) : list string :=
  [ py_str (field c "title") +:+ " (ID: " +:+ py_str (field c "id") +:+ ")";
    py_str (field c "description") ].

Definition product_lines (p : value) : list string :=
  [ py_str (field p "name") +:+ " (ID: " +:+ py_str (field p "id")
      +:+ ", Price: " +:+ py_str (field p "price") +:+ ")";
    py_str (field p "description") ].

(** [sub] occurs in [s]. *)
Definition occurs_in (sub s : string) : Prop :=
  exists before after, s = before +:+ sub +:+ after.

(** The world after [print] of each of [lines]. *)
Definition prints (lines : list string) (w : world server) : world server :=
  {| remote := remote w; stdin := stdin w; trace := trace w ++ map EvPrint lines |}.

(** The menu, and a turn of the loop that goes on to the next. *)
Definition menu : list event :=
  [ EvPrint "1. List categories"; EvPrint "2. Show category details";
    EvPrint "3. Create a category"; EvPrint "4. Delete a category";
    EvPrint "5. Change category title"; EvPrint "6. Create a product";
    EvPrint "7. List products in a category"; EvPrint "0. Exit";
    EvPrompt "Enter your choice: " ].

Definition selections : list string := ["1"; "2"; "3"; "4"; "5"; "6"; "7"; "0"].

Definition turn (w w' : world server) : Prop := iteration w = (Ok Continue, w').

(** A computation that consumes a prefix of the input. *)
Definition reads {A : Type} (m : M A) : Prop :=
  forall w, exists consumed, stdin w = consumed ++ stdin (snd (m w)).

(** A computation that, when it returns, asks for another turn. *)
Definition continues (m : M control) : Prop :=
  forall w c w', m w = (Ok c, w') -> c = Continue.

(** A computation that reads no input and only adds to the trace. *)
Definition quiet {A : Type} (m : M A) : Prop :=
  forall w, stdin (snd (m w)) = stdin w /\ exists t, trace (snd (m w)) = trace w ++ t.

(** ** Further notions *)

(** The calls to the transport in a trace. *)
Fixpoint requests_in (t : list event) : list transport_call :=
  match t with
  | [] => []
  | EvRequest c :: rest => c :: requests_in rest
  | _ :: rest => requests_in rest
  end.

(** A computation that reads no input, makes no call to the transport and
    only adds to the trace. *)
Definition offline {A : Type} (m : M A) : Prop :=
  forall w,
    remote (snd (m w)) = remote w
    /\ stdin (snd (m w)) = stdin w
    /\ exists t, trace (snd (m w)) = trace w ++ t /\ requests_in t = [].

(** The fixed line that delete-category and change-category-title print on a
    success; the other operations decode the body instead. *)
Definition confirmation (op : operation) : option string :=
  match op with
  | DeleteCategory _ => Some "Category deleted"
  | ChangeCategoryTitle _ _ => Some "Category title updated"
  | _ => None
  end.

(** The text of a list of entities: each presentation, then an empty line. *)
Definition presented (lines : value -> list string) (l : list value) : list string :=
  concat (map (fun x => lines x ++ [""]) l).

(** How many lines a turn reads after the choice. *)
Definition fields_read (choice : string) : nat :=
  if String.eqb choice "2" then 1
  else if String.eqb choice "3" then 2
  else if String.eqb choice "4" then 1
  else if String.eqb choice "5" then 2
  else if String.eqb choice "6" then 4
  else if String.eqb choice "7" then 1
  else 0.




(** ** The singleton *)

(** The part of the interpreter's state that [StoreClient] touches: the
    objects of the class created so far, each with its [base_url] once
    [__init__] has set it, and the class attribute [_instance]. An object is
    named by its position in [heap]. *)
Record interpreter : Type :=
  { heap : list (option string); _instance : option nat }.

(** [StoreClient.__new__(cls)]: [not cls._instance] holds only for [None]. *)
Definition StoreClient_new (st : interpreter) : nat * interpreter :=
  match _instance st with
  | Some obj => (obj, st)
  | None =>
      let obj := length (heap st) in
      (obj, {| heap := heap st ++ [None]; _instance := Some obj |})
  end.

(** [StoreClient.__init__(self)]. *)
Definition StoreClient_init (self : nat) (st : interpreter) : interpreter :=
  {| heap := <[self := Some BASE_URL]> (heap st); _instance := _instance st |}.

(** [StoreClient()]: [__new__], then [__init__] on the object it returned. *)
Definition StoreClient (st : interpreter) : nat * interpreter :=
  let (obj, st') := StoreClient_new st in
  (obj, StoreClient_init obj st').

(** The state before any object of the class exists. *)
Definition at_import : interpreter := {| heap := []; _instance := None |}.

(** [_instance], when set, names an object that exists. *)
Definition instance_exists (st : interpreter) : Prop :=
  match _instance st with
  | Some obj => (obj < length (heap st))%nat
  | None => True
  end.

(** * Properties *)

(** ** Strings *)

Lemma append_empty_r (s : string) : s +:+ "" = s.
Proof.
  induction s as [| c s IH]; [reflexivity |].
  change (String c (s +:+ "") = String c s). now rewrite IH.
Qed.

Lemma occurs_in_suffix (a b : string) : occurs_in b (a +:+ b).
Proof. exists a, "". now rewrite append_empty_r. Qed.

(** ** The monad *)

Lemma bind_ok {A B : Type} (m : M A) (f : A -> M B) w a w' :
  m w = (Ok a, w') -> (m ≫= f) w = f a w'.
Proof. intros E. unfold mbind, M_bind. now rewrite E. Qed.

Lemma bind_raise {A B : Type} (m : M A) (f : A -> M B) w e w' :
  m w = (Raise e, w') -> (m ≫= f) w = (Raise e, w').
Proof. intros E. unfold mbind, M_bind. now rewrite E. Qed.

Lemma quiet_ret {A : Type} (a : A) : quiet (mret a).
Proof. intros w. split; [reflexivity | exists []; simpl; now rewrite app_nil_r]. Qed.

Lemma quiet_lift {A : Type} (o : outcome A) : quiet (lift o).
Proof. intros w. split; [reflexivity | exists []; simpl; now rewrite app_nil_r]. Qed.

Lemma quiet_emit ev : quiet (emit ev).
Proof. intros w. split; [reflexivity | now exists [ev]]. Qed.

Lemma quiet_perform c : quiet (perform c).
Proof.
  intros w. unfold perform. destruct (transport c (remote w)) as [o s].
  split; [reflexivity | now exists [EvRequest c]].
Qed.

Lemma quiet_bind {A B : Type} (m : M A) (f : A -> M B) :
  quiet m -> (forall a, quiet (f a)) -> quiet (m ≫= f).
Proof.
  intros Hm Hf w. destruct (Hm w) as [Hin [t Ht]].
  unfold mbind, M_bind. destruct (m w) as [[a | e] w1]; simpl in *.
  - destruct (Hf a w1) as [Hin' [t' Ht']]. split; [congruence |].
    exists (t ++ t'). rewrite Ht', Ht. now rewrite app_assoc.
  - split; [assumption | now exists t].
Qed.

Lemma quiet_for_each {A : Type} (body : A -> M unit) l :
  (forall x, quiet (body x)) -> quiet (for_each body l).
Proof.
  intros Hb. induction l as [| x l IH]; simpl.
  - apply quiet_ret.
  - apply quiet_bind; [apply Hb | intros _; exact IH].
Qed.

Create HintDb quiet.
#[local] Hint Resolve quiet_ret quiet_lift quiet_emit quiet_perform : quiet.

Ltac quiet_steps :=
  repeat first
    [ progress auto with quiet
    | apply quiet_bind; [| intros ?]
    | apply quiet_for_each; intros ? ].

Lemma quiet_print line : quiet (print line).
Proof. apply quiet_emit. Qed.

Lemma quiet_loads body : quiet (loads body).
Proof. unfold loads. quiet_steps. Qed.

#[local] Hint Resolve quiet_print quiet_loads : quiet.

Lemma quiet_CategoryAdapter_display c : quiet (CategoryAdapter_display c).
Proof. unfold CategoryAdapter_display. quiet_steps. Qed.

Lemma quiet_ProductAdapter_display p : quiet (ProductAdapter_display p).
Proof. unfold ProductAdapter_display. quiet_steps. Qed.

#[local] Hint Resolve quiet_CategoryAdapter_display quiet_ProductAdapter_display : quiet.

Lemma quiet_on_success op r : quiet (on_success op r).
Proof. destruct op; unfold on_success, for_in; quiet_steps. Qed.

(** Every operation is one call to the transport followed by a test of
    [ok] on the response. *)
Lemma run_shape op :
  run op = (perform (table_call op) ≫= fun r =>
            if ok r then on_success op r else print (error_line op r)).
Proof. destruct op; reflexivity. Qed.

Lemma quiet_run op : quiet (run op).
Proof.
  rewrite run_shape. apply quiet_bind; [apply quiet_perform |].
  intros r. destruct (ok r); [apply quiet_on_success | apply quiet_print].
Qed.

(** The world in which an operation goes on once the transport has answered. *)
Lemma run_after_response op w r s :
  transport (table_call op) (remote w) = (Ok r, s) ->
  run op w =
    (if ok r then on_success op r else print (error_line op r))
      {| remote := s; stdin := stdin w;
         trace := trace w ++ [EvRequest (table_call op)] |}.
Proof.
  intros E. rewrite run_shape. unfold mbind, M_bind, perform. now rewrite E.
Qed.

Lemma run_without_response op w e s :
  transport (table_call op) (remote w) = (Raise e, s) ->
  run op w =
    (Raise e, {| remote := s; stdin := stdin w;
                 trace := trace w ++ [EvRequest (table_call op)] |}).
Proof.
  intros E. rewrite run_shape. unfold mbind, M_bind, perform. now rewrite E.
Qed.

Lemma ok_false_iff r : ok r = false <-> 400 <= status_code r < 600.
Proof. unfold ok. rewrite negb_false_iff, andb_true_iff. lia. Qed.

Lemma ok_of_2xx r : is_2xx (status_code r) = true -> ok r = true.
Proof.
  unfold is_2xx, ok. rewrite andb_true_iff, negb_true_iff, andb_false_iff. lia.
Qed.

(** The events of an operation start with its request. *)
Lemma events_of_run op w :
  exists t, trace (snd (run op w)) = trace w ++ EvRequest (table_call op) :: t
            /\ events_of op w = EvRequest (table_call op) :: t.
Proof.
  assert (exists t, trace (snd (run op w)) = trace w ++ EvRequest (table_call op) :: t)
    as [t Ht].
  { destruct (transport (table_call op) (remote w)) as [[r | e] s] eqn:E.
    - rewrite (run_after_response _ _ _ _ E).
      assert (quiet (if ok r then on_success op r else print (error_line op r))) as Q.
      { destruct (ok r); [apply quiet_on_success | apply quiet_print]. }
      destruct (Q {| remote := s; stdin := stdin w;
                     trace := trace w ++ [EvRequest (table_call op)] |}) as [_ [t Ht]].
      exists t. rewrite Ht. simpl. now rewrite <- app_assoc.
    - rewrite (run_without_response _ _ _ _ E). now exists []. }
  exists t. split; [exact Ht |]. unfold events_of. rewrite Ht. apply drop_app_length.
Qed.

(** On a response that is not [ok], an operation prints its error line and
    does nothing else. *)
Lemma run_on_failure op w r s :
  transport (table_call op) (remote w) = (Ok r, s) -> ok r = false ->
  run op w =
    (Ok tt, {| remote := s; stdin := stdin w;
               trace := trace w ++ [EvRequest (table_call op); EvPrint (error_line op r)] |}).
Proof.
  intros E F. rewrite (run_after_response _ _ _ _ E), F.
  unfold print, emit. simpl. now rewrite <- app_assoc.
Qed.

Lemma events_on_failure op w r s :
  transport (table_call op) (remote w) = (Ok r, s) -> ok r = false ->
  events_of op w = [EvRequest (table_call op); EvPrint (error_line op r)].
Proof.
  intros E F. unfold events_of. rewrite (run_on_failure _ _ _ _ E F). simpl.
  apply drop_app_length.
Qed.

(** What follows a decoding: the decoder's event comes first. *)
Lemma loads_first {A : Type} body (k : value -> M A) w :
  (forall v, quiet (k v)) ->
  exists t, trace (snd ((loads body ≫= k) w)) = trace w ++ EvJsonLoads body :: t.
Proof.
  intros Q. unfold loads, mbind, M_bind, emit, lift. simpl.
  destruct (json_loads body) as [v | e]; simpl.
  - destruct (Q v {| remote := remote w; stdin := stdin w;
                     trace := trace w ++ [EvJsonLoads body] |}) as [_ [t Ht]].
    exists t. rewrite Ht. simpl. now rewrite <- app_assoc.
  - now exists [].
Qed.

(** On a response that is [ok], what an operation does after the request is
    not its error report. *)
Lemma events_on_success op w r s :
  transport (table_call op) (remote w) = (Ok r, s) -> ok r = true ->
  after_request op w <> [EvPrint (error_line op r)].
Proof.
  intros E T. unfold after_request, events_of.
  rewrite (run_after_response _ _ _ _ E), T.
  set (w1 := {| remote := s; stdin := stdin w;
                trace := trace w ++ [EvRequest (table_call op)] |}).
  assert (forall t, trace (snd (on_success op r w1)) = trace w1 ++ t ->
                    drop 1 (drop (length (trace w)) (trace (snd (on_success op r w1)))) = t)
    as Hdrop.
  { intros t ->. subst w1. simpl. rewrite <- app_assoc, drop_app_length. reflexivity. }
  destruct op; simpl on_success in *;
    lazymatch goal with
    | |- context [ (loads ?b ≫= ?k) w1 ] =>
        assert (forall v, quiet (k v)) as Q by (intros v; unfold for_in; quiet_steps);
        destruct (loads_first b k w1 Q) as [t Ht];
        rewrite (Hdrop _ Ht); discriminate
    | |- _ => rewrite (Hdrop [EvPrint _] eq_refl); discriminate
    end.
Qed.

(** ** The request builder *)

(** C3. For each of the four methods and any payload argument, the factory
    builds a request of that method, for the given URL, which carries a payload
    exactly when the method is POST or PATCH and the payload argument is not
    [None]; the payload it carries is then the argument itself. The requests
    for GET and DELETE carry none. *)
Theorem create_request_method_and_payload (m : http_method) (url : string) (data : value) :
  exists r,
    create_request url (method_name m) data = Some r
    /\ request_method r = m
    /\ request_url r = url
    /\ (is_Some (request_payload r) <-> (m = POST \/ m = PATCH) /\ data <> VNone)
    /\ (forall p, request_payload r = Some p -> p = data).
Proof.
  destruct m; simpl; eexists; (split; [reflexivity |]);
    (split; [reflexivity |]); (split; [reflexivity |]);
    unfold request_payload; simpl.
  - split; [split; [intros [p Hp]; discriminate | intros [[?|?] _]; discriminate]
           | intros p Hp; discriminate].
  - split.
    + split.
      * intros [p Hp]. split; [now left |]. intros ->. discriminate.
      * intros [_ Hd]. destruct data; try (eexists; reflexivity). now destruct Hd.
    + intros p Hp. destruct data; now inversion Hp.
  - split.
    + split.
      * intros [p Hp]. split; [now right |]. intros ->. discriminate.
      * intros [_ Hd]. destruct data; try (eexists; reflexivity). now destruct Hd.
    + intros p Hp. destruct data; now inversion Hp.
  - split; [split; [intros [p Hp]; discriminate | intros [[?|?] _]; discriminate]
           | intros p Hp; discriminate].
Qed.

(** C4. Whatever the operation and the category ID, the first thing an
    operation does is to send one request, whose URL is the base URL followed
    by the resource path of the operations table and nothing else, and whose
    method is the one of the table. The base URL ends in a slash and each
    path starts with one, so the URL has both: list-categories asks for
    [http://localhost:5000//categories]. For an ID typed by the operator the
    path holds the typed text as it is. *)
Theorem request_url_is_base_url_then_path (op : operation) (w : world server) :
  exists c t,
    events_of op w = EvRequest c :: t
    /\ call_url c = BASE_URL +:+ table_path op
    /\ call_method c = table_method op
    /\ BASE_URL +:+ table_path ListCategories = "http://localhost:5000//categories"
    /\ (forall text rest,
          table_path (ShowCategory (VStr text)) = "/categories/" +:+ text
          /\ table_path (DeleteCategory (VStr text)) = "/categories/" +:+ text
          /\ table_path (ChangeCategoryTitle (VStr text) rest) = "/categories/" +:+ text
          /\ table_path (ListProducts (VStr text)) = "/categories/" +:+ text +:+ "/products"
          /\ table_path (CreateProduct (VStr text) rest rest rest)
             = "/categories/" +:+ text +:+ "/products").
Proof.
  destruct (events_of_run op w) as [t [_ Ht]].
  exists (table_call op), t. split; [exact Ht |].
  split; [destruct op; reflexivity |].
  split; [destruct op; reflexivity |].
  split; [reflexivity |].
  intros text rest. repeat split.
Qed.

(** ** The reading of the status *)

(** C1, as the program has it. An operation handles a response as a failure,
    printing its error line with the status code in decimal and nothing more,
    exactly when the status code is from 400 to 599; every status code from
    200 to 299 is handled as a success. *)
Theorem failure_iff_status_400_to_599 (op : operation) (w : world server)
    (r : response) (s : server) :
  transport (table_call op) (remote w) = (Ok r, s) ->
  (handled_as_failure op w r <-> 400 <= status_code r < 600)
  /\ (is_2xx (status_code r) = true -> ~ handled_as_failure op w r)
  /\ error_line op r = error_prefix op +:+ pretty (status_code r).
Proof.
  intros E.
  assert (handled_as_failure op w r <-> ok r = false) as H.
  { unfold handled_as_failure. split.
    - intros F. destruct (ok r) eqn:T; [| reflexivity].
      now destruct (events_on_success _ _ _ _ E T).
    - intros F. unfold after_request. now rewrite (events_on_failure _ _ _ _ E F). }
  split; [now rewrite H, ok_false_iff |].
  split; [| reflexivity].
  intros T. rewrite H, (ok_of_2xx _ T). discriminate.
Qed.

(** C2. An operation calls the JSON decoder only on a response that it takes
    for a success. On any other response it returns normally after the request
    and one printed line, the error line, in which the status code occurs in
    decimal: nothing is decoded and nothing is presented. *)
Theorem decodes_only_on_success (op : operation) (w : world server)
    (r : response) (s : server) :
  transport (table_call op) (remote w) = (Ok r, s) ->
  (decodes (events_of op w) -> ok r = true)
  /\ (ok r = false ->
      fst (run op w) = Ok tt
      /\ events_of op w = [EvRequest (table_call op); EvPrint (error_line op r)]
      /\ ~ decodes (events_of op w)
      /\ occurs_in (pretty (status_code r)) (error_line op r)).
Proof.
  intros E.
  assert (ok r = false -> ~ decodes (events_of op w)) as N.
  { intros F [body Hb]. rewrite (events_on_failure _ _ _ _ E F) in Hb.
    rewrite !elem_of_cons, elem_of_nil in Hb.
    destruct Hb as [Hb | [Hb | []]]; discriminate. }
  split.
  - intros D. destruct (ok r) eqn:T; [reflexivity |]. now destruct (N eq_refl).
  - intros F. split; [now rewrite (run_on_failure _ _ _ _ E F) |].
    split; [exact (events_on_failure _ _ _ _ E F) |].
    split; [exact (N F) |].
    apply occurs_in_suffix.
Qed.

(** ** The presentation of entities *)

Lemma append_assoc (a b c : string) : (a +:+ b) +:+ c = a +:+ b +:+ c.
Proof.
  induction a as [| x a IH]; [reflexivity |].
  change (String x ((a +:+ b) +:+ c) = String x (a +:+ b +:+ c)). now rewrite IH.
Qed.

Lemma occurs_in_prefix (a b : string) : occurs_in a (a +:+ b).
Proof. now exists "", b. Qed.

Lemma occurs_in_middle (a b c : string) : occurs_in b (a +:+ b +:+ c).
Proof. now exists a, c. Qed.

Lemma printed_app (t u : list event) : printed (t ++ u) = printed t ++ printed u.
Proof.
  induction t as [| ev t IH]; [reflexivity |].
  destruct ev; simpl; now rewrite IH.
Qed.

Lemma printed_prints (lines : list string) : printed (map EvPrint lines) = lines.
Proof.
  induction lines as [| l lines IH]; [reflexivity |].
  simpl. now rewrite IH.
Qed.

Lemma prints_nil w : prints [] w = w.
Proof. destruct w. unfold prints. simpl. now rewrite app_nil_r. Qed.

Lemma prints_prints l1 l2 w : prints l2 (prints l1 w) = prints (l1 ++ l2) w.
Proof. unfold prints. simpl. now rewrite map_app, app_assoc. Qed.

Lemma print_prints line w : print line w = (Ok tt, prints [line] w).
Proof. reflexivity. Qed.

Ltac run_fields :=
  unfold mbind, M_bind, lift, field;
  repeat match goal with
         | H : subscript _ _ = Ok _ |- _ => rewrite H; clear H
         end.

Lemma CategoryAdapter_display_lines c w :
  is_category c -> CategoryAdapter_display c w = (Ok tt, prints (category_lines c) w).
Proof.
  intros [[t Ht] [[i Hi] [d Hd]]].
  unfold CategoryAdapter_display, category_lines. run_fields.
  rewrite !print_prints, prints_prints. reflexivity.
Qed.

Lemma ProductAdapter_display_lines p w :
  is_product p -> ProductAdapter_display p w = (Ok tt, prints (product_lines p) w).
Proof.
  intros [[n Hn] [[i Hi] [[c Hc] [d Hd]]]].
  unfold ProductAdapter_display, product_lines. run_fields.
  rewrite !print_prints, prints_prints. reflexivity.
Qed.

(** A loop that presents each entity and then prints an empty line. *)
Lemma for_each_presented (display : value -> M unit) (lines : value -> list string)
    (good : value -> Prop) (l : list value) w :
  (forall x w', good x -> display x w' = (Ok tt, prints (lines x) w')) ->
  Forall good l ->
  for_each (fun x => display x;; print "") l w
  = (Ok tt, prints (concat (map (fun x => lines x ++ [""]) l)) w).
Proof.
  intros D G. revert w. induction G as [| x l Gx G IH]; intros w; simpl.
  - now rewrite prints_nil.
  - unfold mbind, M_bind. rewrite (D x w Gx), print_prints, prints_prints.
    fold (@mbind M _). rewrite IH, prints_prints. reflexivity.
Qed.

Lemma events_of_prints op w s t lines o :
  run op w = (o, prints lines {| remote := s; stdin := stdin w; trace := trace w ++ t |}) ->
  events_of op w = t ++ map EvPrint lines.
Proof.
  intros E. unfold events_of. rewrite E. simpl.
  rewrite <- app_assoc. apply drop_app_length.
Qed.

(** C7. For a category that has a title, an id and a description, the adapter
    prints two lines and returns: the first line is the title, then the id
    between [ (ID: ] and [)], so both occur in it; the second line is the
    description. *)
Theorem category_is_presented_on_two_lines (c title id description : value)
    (w : world server) :
  subscript c "title" = Ok title ->
  subscript c "id" = Ok id ->
  subscript c "description" = Ok description ->
  exists first,
    CategoryAdapter_display c w = (Ok tt, prints [first; py_str description] w)
    /\ first = py_str title +:+ " (ID: " +:+ py_str id +:+ ")"
    /\ occurs_in (py_str title) first
    /\ occurs_in (py_str id) first.
Proof.
  intros Ht Hi Hd. eexists. split; [| split; [reflexivity |]].
  - rewrite CategoryAdapter_display_lines by (repeat split; eexists; eassumption).
    unfold category_lines, field. now rewrite Ht, Hi, Hd.
  - split; [apply occurs_in_prefix |].
    rewrite <- append_assoc. apply occurs_in_middle.
Qed.

(** C5. When the response is taken for a success (as every 2xx response is)
    and its body decodes to a mapping with an id, create-category prints
    exactly one line, [Category created with ID: ] followed by the id, and
    returns; for the integer id 7 the line is [Category created with ID: 7]. *)
Theorem create_category_reports_the_id (title description : value)
    (w : world server) (r : response) (s : server) (category id : value) :
  transport (table_call (CreateCategory title description)) (remote w) = (Ok r, s) ->
  ok r = true ->
  json_loads (content r) = Ok category ->
  subscript category "id" = Ok id ->
  fst (create_category title description w) = Ok tt
  /\ printed (events_of (CreateCategory title description) w)
     = ["Category created with ID: " +:+ py_str id]
  /\ (forall n : Z, id = VInt n ->
      printed (events_of (CreateCategory title description) w)
      = ["Category created with ID: " +:+ pretty n])
  /\ (id = VInt 7 ->
      printed (events_of (CreateCategory title description) w)
      = ["Category created with ID: 7"]).
Proof.
  intros E T J I.
  assert (run (CreateCategory title description) w
          = (Ok tt, prints ["Category created with ID: " +:+ py_str id]
                      {| remote := s; stdin := stdin w;
                         trace := trace w
                           ++ [EvRequest (table_call (CreateCategory title description));
                               EvJsonLoads (content r)] |})) as R.
  { rewrite (run_after_response _ _ _ _ E), T. simpl on_success.
    unfold loads, mbind, M_bind, emit, lift. simpl. rewrite J, I.
    rewrite print_prints. unfold prints. simpl. now rewrite <- !app_assoc. }
  assert (printed (events_of (CreateCategory title description) w)
          = ["Category created with ID: " +:+ py_str id]) as P.
  { rewrite (events_of_prints _ _ _ _ _ _ R), printed_app, printed_prints. reflexivity. }
  split; [change (create_category title description) with (run (CreateCategory title description));
          now rewrite R |].
  split; [exact P |].
  split; [intros n -> | intros ->]; exact P.
Qed.

(** C6. When the response is taken for a success and its body decodes to a
    list of product records, list-products prints, for each product in the
    order of the list, the two lines of its presentation and then one empty
    line, and returns. Two records give the first presentation, one empty
    line, the second presentation and one empty line. An empty list gives no
    line at all and no error, for list-categories as well. *)
Theorem list_products_presents_in_order (category_id : value) (w : world server)
    (r : response) (s : server) (products : list value) :
  transport (table_call (ListProducts category_id)) (remote w) = (Ok r, s) ->
  ok r = true ->
  json_loads (content r) = Ok (VList products) ->
  Forall is_product products ->
  fst (list_products category_id w) = Ok tt
  /\ printed (events_of (ListProducts category_id) w)
     = concat (map (fun p => product_lines p ++ [""]) products)
  /\ (forall p q, products = [p; q] ->
      printed (events_of (ListProducts category_id) w)
      = product_lines p ++ [""] ++ product_lines q ++ [""])
  /\ (products = [] -> printed (events_of (ListProducts category_id) w) = [])
  /\ (forall r' s',
        transport (table_call ListCategories) (remote w) = (Ok r', s') ->
        ok r' = true ->
        json_loads (content r') = Ok (VList []) ->
        fst (list_categories w) = Ok tt
        /\ printed (events_of ListCategories w) = []).
Proof.
  intros E T J G.
  assert (run (ListProducts category_id) w
          = (Ok tt, prints (concat (map (fun p => product_lines p ++ [""]) products))
                      {| remote := s; stdin := stdin w;
                         trace := trace w
                           ++ [EvRequest (table_call (ListProducts category_id));
                               EvJsonLoads (content r)] |})) as R.
  { rewrite (run_after_response _ _ _ _ E), T. simpl on_success.
    unfold loads, for_in, mbind, M_bind, emit, lift. simpl. rewrite J. simpl.
    fold (@mbind M _).
    rewrite (for_each_presented ProductAdapter_display product_lines is_product)
      by (auto using ProductAdapter_display_lines).
    unfold prints. simpl. now rewrite <- !app_assoc. }
  assert (printed (events_of (ListProducts category_id) w)
          = concat (map (fun p => product_lines p ++ [""]) products)) as P.
  { rewrite (events_of_prints _ _ _ _ _ _ R), printed_app, printed_prints. reflexivity. }
  split; [change (list_products category_id) with (run (ListProducts category_id));
          now rewrite R |].
  split; [exact P |].
  split; [intros p q -> | split; [intros -> |]].
  - rewrite P. reflexivity.
  - exact P.
  - intros r' s' E' T' J'.
    assert (run ListCategories w
            = (Ok tt, prints []
                        {| remote := s'; stdin := stdin w;
                           trace := trace w
                             ++ [EvRequest (table_call ListCategories);
                                 EvJsonLoads (content r')] |})) as R'.
    { rewrite (run_after_response _ _ _ _ E'), T'. simpl on_success.
      unfold loads, for_in, mbind, M_bind, emit, lift. simpl. rewrite J'. simpl.
      unfold prints. simpl. now rewrite <- !app_assoc, app_nil_r. }
    split; [change list_categories with (run ListCategories); now rewrite R' |].
    rewrite (events_of_prints _ _ _ _ _ _ R'), printed_app, printed_prints. reflexivity.
Qed.

(** ** The observation channel *)

Section ObserverFacts.

Context {listener : Type} `{EqDecision listener}.
Variable update : listener -> value -> M unit.

Lemma list_remove_absent (x : listener) (l : list listener) :
  x ∉ l -> list_remove x l = None.
Proof.
  induction l as [| y l IH]; [reflexivity |].
  rewrite not_elem_of_cons. intros [Hxy Hl]. simpl.
  destruct (decide (y = x)) as [-> | _]; [now destruct Hxy |].
  now rewrite (IH Hl).
Qed.

Lemma list_remove_first (x : listener) (before after : list listener) :
  x ∉ before -> list_remove x (before ++ x :: after) = Some (before ++ after).
Proof.
  induction before as [| y l IH]; simpl.
  - intros _. destruct (decide (x = x)) as [_ | N]; [reflexivity | now destruct N].
  - rewrite not_elem_of_cons. intros [Hxy Hl].
    destruct (decide (y = x)) as [-> | _]; [now destruct Hxy |].
    now rewrite (IH Hl).
Qed.

Lemma for_each_then_two (f : listener -> M unit) (l : list listener) (a b : listener) w :
  for_each f (l ++ [a; b]) w = (for_each f l;; f a;; f b) w.
Proof.
  revert w. induction l as [| x l IH]; intros w; simpl;
    unfold mbind, M_bind, mret, M_ret.
  - destruct (f a w) as [[[] | e] w1]; [| reflexivity].
    destruct (f b w1) as [[[] | e] w2]; reflexivity.
  - destruct (f x w) as [[[] | e] w1]; [apply IH | reflexivity].
Qed.

Lemma for_each_then_one (f : listener -> M unit) (l : list listener) (b : listener) w :
  for_each f (l ++ [b]) w = (for_each f l;; f b) w.
Proof.
  revert w. induction l as [| x l IH]; intros w; simpl;
    unfold mbind, M_bind, mret, M_ret.
  - destruct (f b w) as [[[] | e] w1]; reflexivity.
  - destruct (f x w) as [[[] | e] w1]; [apply IH | reflexivity].
Qed.

(** C8, as the program has it. On a new channel, after attaching [A] and then
    [B], [notify] is the update of [A] followed by the update of [B], each run
    once on the entity; detaching [A] then leaves [B] alone, and [notify] is
    the update of [B] only. On a channel that already has listeners, [notify]
    first runs their updates, in their order, then those of [A] and [B]; when
    [A] was not among them, detaching [A] leaves them and [B], and when it
    was, detaching [A] removes its earlier occurrence, so that [A] stays
    attached, before [B]. *)
Theorem notify_in_attachment_order (self : ObservableCategory) (A B : listener)
    (category : value) (w : world server) :
  notify update (attach (attach ObservableCategory_init A) B) category w
  = (update A category;; update B category) w
  /\ (exists only_B,
        detach (attach (attach ObservableCategory_init A) B) A = Ok only_B
        /\ observers only_B = [B]
        /\ notify update only_B category w = update B category w)
  /\ notify update (attach (attach self A) B) category w
     = (notify update self category;; update A category;; update B category) w
  /\ (A ∉ observers self ->
      exists rest,
        detach (attach (attach self A) B) A = Ok rest
        /\ observers rest = observers self ++ [B]
        /\ notify update rest category w
           = (notify update self category;; update B category) w)
  /\ (A ∈ observers self ->
      exists before after,
        observers self = before ++ A :: after
        /\ (A ∉ before)
        /\ detach (attach (attach self A) B) A
           = Ok {| observers := before ++ after ++ [A; B] |}).
Proof.
  split; [| split; [| split; [| split]]].
  - unfold notify. simpl. unfold mbind, M_bind, mret, M_ret.
    destruct (update A category w) as [[[] | e] w1]; [| reflexivity].
    destruct (update B category w1) as [[[] | e] w2]; reflexivity.
  - exists {| observers := [B] |}. split; [| split; [reflexivity |]].
    + unfold detach. simpl. destruct (decide (A = A)) as [_ | N]; [reflexivity | now destruct N].
    + unfold notify. simpl. unfold mbind, M_bind, mret, M_ret.
      destruct (update B category w) as [[[] | e] w1]; reflexivity.
  - unfold notify, attach. simpl. rewrite <- app_assoc. apply for_each_then_two.
  - intros HA.
    exists {| observers := observers self ++ [B] |}. split; [| split; [reflexivity |]].
    + unfold detach, attach. simpl. rewrite <- app_assoc. simpl.
      now rewrite (list_remove_first A (observers self) [B] HA).
    + unfold notify. simpl. apply for_each_then_one.
  - intros I. destruct (list_elem_of_split_l _ _ I) as (before & after & E & N).
    exists before, after. split; [exact E |]. split; [exact N |].
    unfold detach, attach. simpl. rewrite E, <- !app_assoc. simpl.
    now rewrite (list_remove_first A before (after ++ [A; B]) N).
Qed.

(** C10. Detaching a listener that is not attached raises [ValueError].
    Detaching one that is attached removes its first occurrence: the listeners
    before it, among which it is not, and those after it stay, in their
    order. *)
Theorem detach_removes_first_or_raises (self : ObservableCategory) (l : listener) :
  (l ∉ observers self -> detach self l = Raise ValueError)
  /\ (l ∈ observers self ->
      exists before after,
        observers self = before ++ l :: after
        /\ (l ∉ before)
        /\ detach self l = Ok {| observers := before ++ after |}).
Proof.
  split.
  - intros N. unfold detach. now rewrite (list_remove_absent _ _ N).
  - intros I. destruct (list_elem_of_split_l _ _ I) as (before & after & E & N).
    exists before, after. split; [exact E |]. split; [exact N |].
    unfold detach. now rewrite E, (list_remove_first _ _ _ N).
Qed.

End ObserverFacts.

(** ** The menu loop *)

Lemma reads_of_quiet {A : Type} (m : M A) : quiet m -> reads m.
Proof. intros Q w. exists []. now destruct (Q w) as [-> _]. Qed.

Lemma reads_input prompt : reads (input prompt).
Proof.
  intros w. unfold input. destruct (stdin w) as [| line rest]; simpl.
  - now exists [].
  - now exists [line].
Qed.

Lemma reads_bind {A B : Type} (m : M A) (f : A -> M B) :
  reads m -> (forall a, reads (f a)) -> reads (m ≫= f).
Proof.
  intros Hm Hf w. destruct (Hm w) as [c Hc].
  unfold mbind, M_bind. destruct (m w) as [[a | e] w1]; simpl in *.
  - destruct (Hf a w1) as [c' Hc']. exists (c ++ c'). now rewrite <- app_assoc, <- Hc'.
  - now exists c.
Qed.

Lemma continues_ret : continues (mret Continue).
Proof. intros w c w' E. now inversion E. Qed.

Lemma continues_bind {A : Type} (m : M A) (f : A -> M control) :
  (forall a, continues (f a)) -> continues (m ≫= f).
Proof.
  intros Hf w c w'. unfold mbind, M_bind.
  destruct (m w) as [[a | e] w1]; [apply Hf | discriminate].
Qed.

Lemma reads_dispatch choice : reads (dispatch choice).
Proof.
  unfold dispatch.
  repeat match goal with
         | |- reads (if ?b then _ else _) => destruct b
         end;
    repeat first
      [ apply reads_input
      | apply reads_of_quiet;
          first [ apply quiet_ret | apply quiet_lift | apply quiet_print
                | apply (quiet_run ListCategories)
                | apply (quiet_run (ShowCategory _))
                | apply (quiet_run (CreateCategory _ _))
                | apply (quiet_run (DeleteCategory _))
                | apply (quiet_run (ChangeCategoryTitle _ _))
                | apply (quiet_run (CreateProduct _ _ _ _))
                | apply (quiet_run (ListProducts _)) ]
      | apply reads_bind; [| intros ?] ].
Qed.

(** Only the choice [0] makes [dispatch] ask for the end of the loop, and it
    does nothing else then. *)
Lemma dispatch_break choice w w' :
  dispatch choice w = (Ok Break, w') -> choice = "0" /\ w' = w.
Proof.
  unfold dispatch.
  repeat match goal with
         | |- (if String.eqb ?a ?b then _ else _) _ = _ -> _ =>
             destruct (String.eqb_spec a b) as [-> | ?]
         end;
    try (intros E;
         assert (Break = Continue) as X
           by (revert E; apply continues_bind; intros ?;
               repeat first [ apply continues_ret | apply continues_bind; intros ? ]);
         discriminate X).
  intros E. now inversion E.
Qed.

Lemma dispatch_0 w : dispatch "0" w = (Ok Break, w).
Proof. reflexivity. Qed.

Lemma dispatch_unrecognized choice w :
  choice ∉ selections ->
  dispatch choice w = (Ok Continue, prints ["Invalid choice. Please try again."] w).
Proof.
  unfold selections. rewrite !not_elem_of_cons. intros N.
  unfold dispatch.
  repeat match goal with
         | |- (if String.eqb ?a ?b then _ else _) _ = _ =>
             destruct (String.eqb_spec a b) as [-> | ?]; [exfalso; tauto |]
         end.
  reflexivity.
Qed.

(** A turn prints the menu and reads the choice, or stops at the end of the
    input. *)
Lemma iteration_choice w choice rest :
  stdin w = choice :: rest ->
  iteration w
  = dispatch choice {| remote := remote w; stdin := rest; trace := trace w ++ menu |}.
Proof.
  intros E. unfold iteration, mbind, M_bind, print, emit, input. simpl.
  rewrite E. unfold menu. now rewrite <- !app_assoc.
Qed.

Lemma iteration_end_of_input w :
  stdin w = [] ->
  iteration w
  = (Raise EOFError, {| remote := remote w; stdin := []; trace := trace w ++ menu |}).
Proof.
  intros E. unfold iteration, mbind, M_bind, print, emit, input. simpl.
  rewrite E. unfold menu. now rewrite <- !app_assoc.
Qed.

Lemma iteration_consumes w c w' :
  iteration w = (Ok c, w') ->
  exists choice consumed,
    stdin w = choice :: consumed ++ stdin w'
    /\ (c = Break -> choice = "0" /\ consumed = []
                     /\ w' = {| remote := remote w; stdin := stdin w';
                                trace := trace w ++ menu |}).
Proof.
  intros E. destruct (stdin w) as [| choice rest] eqn:S.
  - rewrite (iteration_end_of_input _ S) in E. discriminate.
  - rewrite (iteration_choice _ _ _ S) in E.
    destruct (reads_dispatch choice
                {| remote := remote w; stdin := rest; trace := trace w ++ menu |})
      as [consumed Hc].
    rewrite E in Hc. simpl in Hc. exists choice, consumed.
    split; [now rewrite Hc |].
    intros ->. destruct (dispatch_break _ _ _ E) as [-> ->]. simpl in *.
    repeat split. destruct consumed as [| x l]; [reflexivity |].
    apply (f_equal length) in Hc. rewrite length_app in Hc. simpl in Hc. lia.
Qed.

Lemma turns_consume w w0 :
  rtc turn w w0 -> exists before, stdin w = before ++ stdin w0.
Proof.
  induction 1 as [w | w w1 w0 T _ [before IH]].
  - now exists [].
  - destruct (iteration_consumes _ _ _ T) as (choice & consumed & E & _).
    exists ((choice :: consumed) ++ before). rewrite E, IH.
    simpl. now rewrite <- app_assoc.
Qed.

Lemma main_loop_exited fuel w w' :
  main_loop fuel w = (Exited, w') ->
  exists w0, rtc turn w w0 /\ iteration w0 = (Ok Break, w').
Proof.
  revert w. induction fuel as [| fuel IH]; intros w; simpl; [discriminate |].
  destruct (iteration w) as [[[] | e] w1] eqn:E.
  - intros R. destruct (IH _ R) as (w0 & T & B).
    exists w0. split; [| exact B]. now apply rtc_l with w1.
  - intros R. inversion R; subst. exists w. split; [apply rtc_refl | exact E].
  - discriminate.
Qed.

Lemma main_loop_has_fuel fuel w :
  (length (stdin w) < fuel)%nat -> fst (main_loop fuel w) <> OutOfFuel.
Proof.
  revert w. induction fuel as [| fuel IH]; intros w L; [lia |]. simpl.
  destruct (iteration w) as [[[] | e] w1] eqn:E; simpl; try discriminate.
  apply IH. destruct (iteration_consumes _ _ _ E) as (choice & consumed & S & _).
  rewrite S in L. simpl in L. rewrite length_app in L. lia.
Qed.

(** C9, as the program has it. On every input the loop ends. It ends by
    [break] only in a turn whose choice is [0], it does so in every such turn,
    right after the menu and the prompt, and nothing is read after that
    choice. A choice that is none of [0] to [7] prints the invalid-choice
    message and the loop goes on with the next turn. Besides [break], the loop
    ends when a turn raises an exception, which nothing catches. *)
Theorem loop_breaks_only_on_choice_0 (w : world server) :
  fst (main w) <> OutOfFuel
  /\ (forall w', main w = (Exited, w') ->
        exists w0 before,
          rtc turn w w0
          /\ stdin w0 = "0" :: stdin w'
          /\ iteration w0 = (Ok Break, w')
          /\ stdin w = before ++ "0" :: stdin w')
  /\ (forall rest fuel, stdin w = "0" :: rest ->
        main_loop (S fuel) w
        = (Exited, {| remote := remote w; stdin := rest; trace := trace w ++ menu |}))
  /\ (forall choice rest fuel, stdin w = choice :: rest -> choice ∉ selections ->
        main_loop (S fuel) w
        = main_loop fuel
            {| remote := remote w; stdin := rest;
               trace := trace w ++ menu ++ [EvPrint "Invalid choice. Please try again."] |})
  /\ (forall e w' fuel, iteration w = (Raise e, w') ->
        main_loop (S fuel) w = (Uncaught e, w')).
Proof.
  split; [apply main_loop_has_fuel; lia |].
  split; [| split; [| split]].
  - intros w' R. destruct (main_loop_exited _ _ _ R) as (w0 & T & B).
    destruct (turns_consume _ _ T) as [before Hb].
    destruct (iteration_consumes _ _ _ B) as (choice & consumed & S & K).
    destruct (K eq_refl) as (-> & -> & _). simpl in S.
    exists w0, before. repeat split; try assumption. now rewrite Hb, S.
  - intros rest fuel S. simpl. now rewrite (iteration_choice _ _ _ S), dispatch_0.
  - intros choice rest fuel S N. simpl.
    rewrite (iteration_choice _ _ _ S), (dispatch_unrecognized _ _ N).
    unfold prints. simpl. now rewrite <- app_assoc.
  - intros e w' fuel E. simpl. now rewrite E.
Qed.

(** * Further properties *)

(** ** Computations that stay away from the transport *)

Lemma requests_in_app (t u : list event) :
  requests_in (t ++ u) = requests_in t ++ requests_in u.
Proof.
  induction t as [| ev t IH]; [reflexivity |].
  destruct ev; simpl; now rewrite IH.
Qed.

Lemma offline_ret {A : Type} (a : A) : offline (mret a).
Proof.
  intros w. repeat split. exists []. simpl. now rewrite app_nil_r.
Qed.

Lemma offline_lift {A : Type} (o : outcome A) : offline (lift o).
Proof.
  intros w. repeat split. exists []. simpl. now rewrite app_nil_r.
Qed.

Lemma offline_print line : offline (print line).
Proof. intros w. repeat split. now exists [EvPrint line]. Qed.

Lemma offline_bind {A B : Type} (m : M A) (f : A -> M B) :
  offline m -> (forall a, offline (f a)) -> offline (m ≫= f).
Proof.
  intros Hm Hf w. destruct (Hm w) as (Hr & Hi & t & Ht & Hq).
  unfold mbind, M_bind. destruct (m w) as [[a | e] w1]; simpl in *.
  - destruct (Hf a w1) as (Hr' & Hi' & t' & Ht' & Hq').
    split; [congruence |]. split; [congruence |].
    exists (t ++ t'). rewrite Ht', Ht, requests_in_app, Hq, Hq'.
    now rewrite app_assoc.
  - split; [assumption |]. split; [assumption |]. now exists t.
Qed.

Lemma offline_loads body : offline (loads body).
Proof.
  unfold loads. apply offline_bind; [| intros _; apply offline_lift].
  intros w. repeat split. now exists [EvJsonLoads body].
Qed.

Lemma offline_for_each {A : Type} (body : A -> M unit) l :
  (forall x, offline (body x)) -> offline (for_each body l).
Proof.
  intros Hb. induction l as [| x l IH]; simpl.
  - apply offline_ret.
  - apply offline_bind; [apply Hb | intros _; exact IH].
Qed.

Ltac offline_steps :=
  repeat first
    [ apply offline_ret | apply offline_lift | apply offline_print | apply offline_loads
    | apply offline_bind; [| intros ?]
    | apply offline_for_each; intros ? ].

Lemma offline_on_success op r : offline (on_success op r).
Proof.
  destruct op; unfold on_success, for_in, CategoryAdapter_display, ProductAdapter_display;
    offline_steps.
Qed.

Lemma offline_after_response op r :
  offline (if ok r then on_success op r else print (error_line op r)).
Proof. destruct (ok r); [apply offline_on_success | apply offline_print]. Qed.

(** ** The request and what can go wrong around it *)

(** X1. The factory knows the four method names as written, in capitals: for
    any other text it gives [None], and sending that raises [AttributeError]
    before anything reaches the transport or the trace. *)
Theorem unknown_method_builds_no_request (url method : string) (data : value)
    (w : world server) :
  (create_request url method data = None
   <-> method ∉ ["GET"; "POST"; "PATCH"; "DELETE"])
  /\ (method ∉ ["GET"; "POST"; "PATCH"; "DELETE"] ->
      send (create_request url method data) w = (Raise AttributeError, w)).
Proof.
  assert (create_request url method data = None
          <-> method ∉ ["GET"; "POST"; "PATCH"; "DELETE"]) as H.
  { rewrite !not_elem_of_cons. unfold create_request.
    repeat match goal with
           | |- context [String.eqb ?a ?b] => destruct (String.eqb_spec a b) as [-> | ?]
           end;
      (split; [intros E; try discriminate E | intros N; try tauto]).
    repeat split; try assumption. apply not_elem_of_nil. }
  split; [exact H |].
  intros N. apply H in N. now rewrite N.
Qed.

(** X2. When the transport fails to answer, the operation raises the same
    exception: the request is the only event, and nothing is printed. *)
Theorem transport_failure_is_raised (op : operation) (w : world server)
    (e : exn) (s : server) :
  transport (table_call op) (remote w) = (Raise e, s) ->
  fst (run op w) = Raise e
  /\ events_of op w = [EvRequest (table_call op)]
  /\ printed (events_of op w) = [].
Proof.
  intros E.
  assert (events_of op w = [EvRequest (table_call op)]) as H.
  { unfold events_of. rewrite (run_without_response _ _ _ _ E). simpl.
    apply drop_app_length. }
  split; [now rewrite (run_without_response _ _ _ _ E) |].
  split; [exact H | now rewrite H].
Qed.

(** X3. Every operation calls the transport exactly once, with the call of
    the operations table, whatever the answer: there is no second attempt. The
    service is left as that one call left it, and no line of the operator's
    input is read. The payloads are the title and description of a new
    category, the new title, and the name, price and description of a new
    product. *)
Theorem one_request_per_operation (op : operation) (w : world server) :
  requests_in (events_of op w) = [table_call op]
  /\ remote (snd (run op w)) = snd (transport (table_call op) (remote w))
  /\ stdin (snd (run op w)) = stdin w
  /\ (forall title description,
        op = CreateCategory title description ->
        call_payload (table_call op)
        = Some (VDict [("title", title); ("description", description)]))
  /\ (forall id new_title,
        op = ChangeCategoryTitle id new_title ->
        call_payload (table_call op) = Some (VDict [("title", new_title)]))
  /\ (forall id name price description,
        op = CreateProduct id name price description ->
        call_payload (table_call op)
        = Some (VDict [("name", name); ("price", price); ("description", description)])).
Proof.
  split; [| split; [| split]].
  - unfold events_of.
    destruct (transport (table_call op) (remote w)) as [[r | e] s] eqn:E.
    + rewrite (run_after_response _ _ _ _ E).
      pose proof (offline_after_response op r) as O.
      destruct (O {| remote := s; stdin := stdin w;
                     trace := trace w ++ [EvRequest (table_call op)] |})
        as (_ & _ & t & -> & Q).
      simpl. rewrite <- app_assoc, drop_app_length. simpl. now rewrite Q.
    + rewrite (run_without_response _ _ _ _ E). simpl. now rewrite drop_app_length.
  - destruct (transport (table_call op) (remote w)) as [[r | e] s] eqn:E.
    + rewrite (run_after_response _ _ _ _ E).
      pose proof (offline_after_response op r) as O.
      now destruct (O {| remote := s; stdin := stdin w;
                         trace := trace w ++ [EvRequest (table_call op)] |}) as (-> & _).
    + now rewrite (run_without_response _ _ _ _ E).
  - apply quiet_run.
  - repeat split; intros; subst op; reflexivity.
Qed.

(** X4. When the response is taken for a success and [json.loads] raises on
    its body, an operation that decodes raises the same exception: the request
    and the decoding are the only events, and nothing is printed. *)
Theorem decode_failure_is_raised (op : operation) (w : world server)
    (r : response) (s : server) (e : exn) :
  confirmation op = None ->
  transport (table_call op) (remote w) = (Ok r, s) ->
  ok r = true ->
  json_loads (content r) = Raise e ->
  fst (run op w) = Raise e
  /\ events_of op w = [EvRequest (table_call op); EvJsonLoads (content r)]
  /\ printed (events_of op w) = [].
Proof.
  intros C E T J.
  assert (run op w
          = (Raise e, {| remote := s; stdin := stdin w;
                         trace := trace w ++ [EvRequest (table_call op);
                                              EvJsonLoads (content r)] |})) as R.
  { rewrite (run_after_response _ _ _ _ E), T.
    destruct op; try discriminate C; simpl on_success;
      unfold loads, mbind, M_bind, emit, lift; simpl; rewrite J;
      now rewrite <- app_assoc. }
  assert (events_of op w = [EvRequest (table_call op); EvJsonLoads (content r)]) as H.
  { unfold events_of. rewrite R. simpl. apply drop_app_length. }
  split; [now rewrite R |]. split; [exact H | now rewrite H].
Qed.

(** X5. Delete-category and change-category-title never look at the body of
    the response: whenever the transport answers, they return normally after
    the request and one printed line, their confirmation on a success and
    their error line otherwise. *)
Theorem confirming_operations_never_decode (op : operation) (line : string)
    (w : world server) (r : response) (s : server) :
  confirmation op = Some line ->
  transport (table_call op) (remote w) = (Ok r, s) ->
  fst (run op w) = Ok tt
  /\ events_of op w
     = [EvRequest (table_call op); EvPrint (if ok r then line else error_line op r)]
  /\ ~ decodes (events_of op w).
Proof.
  intros C E.
  assert (run op w
          = (Ok tt, {| remote := s; stdin := stdin w;
                       trace := trace w
                         ++ [EvRequest (table_call op);
                             EvPrint (if ok r then line else error_line op r)] |})) as R.
  { rewrite (run_after_response _ _ _ _ E).
    destruct op; try discriminate C; inversion C; subst line;
      destruct (ok r); simpl; unfold print, emit; simpl; now rewrite <- app_assoc. }
  assert (events_of op w
          = [EvRequest (table_call op);
             EvPrint (if ok r then line else error_line op r)]) as H.
  { unfold events_of. rewrite R. simpl. apply drop_app_length. }
  split; [now rewrite R |]. split; [exact H |].
  intros [body Hb]. rewrite H, !elem_of_cons, elem_of_nil in Hb.
  destruct Hb as [Hb | [Hb | []]]; discriminate.
Qed.

(** ** The adapters and the lists *)

Lemma events_of_raise op w s t lines e :
  run op w = (Raise e, prints lines {| remote := s; stdin := stdin w; trace := trace w ++ t |}) ->
  fst (run op w) = Raise e /\ printed (events_of op w) = printed t ++ lines.
Proof.
  intros E. split; [now rewrite E |].
  rewrite (events_of_prints _ _ _ _ _ _ E), printed_app, printed_prints. reflexivity.
Qed.

Lemma events_of_return op w s t lines :
  run op w = (Ok tt, prints lines {| remote := s; stdin := stdin w; trace := trace w ++ t |}) ->
  fst (run op w) = Ok tt /\ printed (events_of op w) = printed t ++ lines.
Proof.
  intros E. split; [now rewrite E |].
  rewrite (events_of_prints _ _ _ _ _ _ E), printed_app, printed_prints. reflexivity.
Qed.

(** A loop over entities stops at the first one whose presentation raises. *)
Lemma for_each_stops (display : value -> M unit) (lines : value -> list string)
    (good : value -> Prop) (before : list value) (bad : value) (after : list value)
    (e : exn) (partial : list string) w :
  (forall x w', good x -> display x w' = (Ok tt, prints (lines x) w')) ->
  (forall w', display bad w' = (Raise e, prints partial w')) ->
  Forall good before ->
  for_each (fun x => display x;; print "") (before ++ bad :: after) w
  = (Raise e, prints (presented lines before ++ partial) w).
Proof.
  intros D B G. revert w. induction G as [| x l Gx G IH]; intros w; simpl.
  - unfold mbind, M_bind. now rewrite B.
  - unfold mbind, M_bind. rewrite (D x w Gx), print_prints, prints_prints.
    fold (@mbind M _). rewrite IH, prints_prints.
    unfold presented. simpl. now rewrite <- !app_assoc.
Qed.

Lemma ProductAdapter_display_partial (p name id price : value) (e : exn) w :
  subscript p "name" = Ok name ->
  subscript p "id" = Ok id ->
  subscript p "price" = Ok price ->
  subscript p "description" = Raise e ->
  ProductAdapter_display p w
  = (Raise e,
     prints [py_str name +:+ " (ID: " +:+ py_str id +:+ ", Price: "
               +:+ py_str price +:+ ")"] w).
Proof.
  intros Hn Hi Hp He. unfold ProductAdapter_display, mbind, M_bind, lift.
  rewrite Hn, Hi, Hp, He. now rewrite !print_prints.
Qed.

(** X6. What the category adapter does with an entity that lacks something.
    A value that is no mapping raises [TypeError], a mapping without a title or
    without an id raises [KeyError] for that key, and nothing has been printed
    then. A mapping with a title and an id but no description has its first
    line printed before [KeyError] is raised for the description. *)
Theorem category_adapter_on_a_missing_field (c : value) (w : world server) :
  ((forall items, c <> VDict items) ->
   CategoryAdapter_display c w = (Raise TypeError, w))
  /\ (forall items, c = VDict items -> dict_get "title" items = None ->
      CategoryAdapter_display c w = (Raise (KeyError "title"), w))
  /\ (forall items title, c = VDict items ->
      dict_get "title" items = Some title -> dict_get "id" items = None ->
      CategoryAdapter_display c w = (Raise (KeyError "id"), w))
  /\ (forall items title id, c = VDict items ->
      dict_get "title" items = Some title -> dict_get "id" items = Some id ->
      dict_get "description" items = None ->
      CategoryAdapter_display c w
      = (Raise (KeyError "description"),
         prints [py_str title +:+ " (ID: " +:+ py_str id +:+ ")"] w)).
Proof.
  unfold CategoryAdapter_display, mbind, M_bind, lift.
  split; [| split; [| split]].
  - intros N. destruct c; try reflexivity. now destruct (N items).
  - intros items -> T. simpl. now rewrite T.
  - intros items title -> T I. simpl. now rewrite T, I.
  - intros items title id -> T I D. simpl. now rewrite T, I, D.
Qed.

(** X7. The product adapter prints two lines for a product that has a name,
    an id, a price and a description: the first holds the name, the id and the
    price, the second is the description. Without a price nothing is printed
    before [KeyError]; without a description the first line is. *)
Theorem product_is_presented_on_two_lines (p name id price : value) (w : world server) :
  subscript p "name" = Ok name ->
  subscript p "id" = Ok id ->
  subscript p "price" = Ok price ->
  let first :=
    py_str name +:+ " (ID: " +:+ py_str id +:+ ", Price: " +:+ py_str price +:+ ")" in
  (forall description, subscript p "description" = Ok description ->
     ProductAdapter_display p w = (Ok tt, prints [first; py_str description] w))
  /\ (forall e, subscript p "description" = Raise e ->
        ProductAdapter_display p w = (Raise e, prints [first] w))
  /\ occurs_in (py_str name) first
  /\ occurs_in (py_str id) first
  /\ occurs_in (py_str price) first.
Proof.
  intros Hn Hi Hp first. split; [| split; [| split; [| split]]].
  - intros d Hd. unfold ProductAdapter_display, mbind, M_bind, lift.
    rewrite Hn, Hi, Hp, Hd. now rewrite !print_prints, prints_prints.
  - intros e He. now apply ProductAdapter_display_partial.
  - apply occurs_in_prefix.
  - unfold first. rewrite <- append_assoc. apply occurs_in_middle.
  - unfold first. rewrite <- (append_assoc (py_str name)), <- (append_assoc (_ +:+ _)).
    rewrite <- append_assoc. apply occurs_in_middle.
Qed.

(** X8. When the response is taken for a success and its body decodes to a
    list of category records, list-categories prints, for each category in the
    order of the list, the two lines of its presentation and then one empty
    line, and returns. *)
Theorem list_categories_presents_in_order (w : world server) (r : response)
    (s : server) (categories : list value) :
  transport (table_call ListCategories) (remote w) = (Ok r, s) ->
  ok r = true ->
  json_loads (content r) = Ok (VList categories) ->
  Forall is_category categories ->
  fst (list_categories w) = Ok tt
  /\ printed (events_of ListCategories w) = presented category_lines categories.
Proof.
  intros E T J G.
  apply (events_of_return ListCategories w s
           [EvRequest (table_call ListCategories); EvJsonLoads (content r)]).
  rewrite (run_after_response _ _ _ _ E), T. simpl on_success.
  unfold loads, for_in, mbind, M_bind, emit, lift. simpl. rewrite J. simpl.
  fold (@mbind M _).
  rewrite (for_each_presented CategoryAdapter_display category_lines is_category)
    by (auto using CategoryAdapter_display_lines).
  unfold prints, presented. simpl. now rewrite <- !app_assoc.
Qed.

(** X9. List-categories stops at the first element that cannot be presented:
    when the element after some category records has no title, the records
    before it are printed, each with its empty line, the exception of the
    lookup is raised, and nothing of the elements after it is printed. *)
Theorem list_categories_stops_at_a_bad_record (w : world server) (r : response)
    (s : server) (before : list value) (bad : value) (after : list value) (e : exn) :
  transport (table_call ListCategories) (remote w) = (Ok r, s) ->
  ok r = true ->
  json_loads (content r) = Ok (VList (before ++ bad :: after)) ->
  Forall is_category before ->
  subscript bad "title" = Raise e ->
  fst (list_categories w) = Raise e
  /\ printed (events_of ListCategories w) = presented category_lines before.
Proof.
  intros E T J G B.
  assert (presented category_lines before = [] ++ presented category_lines before ++ [])
    as -> by (simpl; now rewrite app_nil_r).
  apply (events_of_raise ListCategories w s
           [EvRequest (table_call ListCategories); EvJsonLoads (content r)]).
  rewrite (run_after_response _ _ _ _ E), T. simpl on_success.
  unfold loads, for_in, mbind, M_bind, emit, lift. simpl. rewrite J. simpl.
  fold (@mbind M _).
  rewrite (for_each_stops CategoryAdapter_display category_lines is_category
             before bad after e []).
  - unfold prints. simpl. now rewrite <- !app_assoc.
  - auto using CategoryAdapter_display_lines.
  - intros w'. unfold CategoryAdapter_display, mbind, M_bind, lift. rewrite B.
    now rewrite prints_nil.
  - exact G.
Qed.

(** X10. List-products prints the first line of a product before it finds that
    the product has no description: the records before it are printed, each
    with its empty line, then that first line, and [KeyError] is raised. *)
Theorem list_products_stops_inside_a_bad_record (category_id : value)
    (w : world server) (r : response) (s : server)
    (before : list value) (bad : value) (after : list value) (name id price : value)
    (e : exn) :
  transport (table_call (ListProducts category_id)) (remote w) = (Ok r, s) ->
  ok r = true ->
  json_loads (content r) = Ok (VList (before ++ bad :: after)) ->
  Forall is_product before ->
  subscript bad "name" = Ok name ->
  subscript bad "id" = Ok id ->
  subscript bad "price" = Ok price ->
  subscript bad "description" = Raise e ->
  fst (list_products category_id w) = Raise e
  /\ printed (events_of (ListProducts category_id) w)
     = presented product_lines before
       ++ [py_str name +:+ " (ID: " +:+ py_str id +:+ ", Price: " +:+ py_str price +:+ ")"].
Proof.
  intros E T J G Hn Hi Hp Hd.
  change (list_products category_id) with (run (ListProducts category_id)).
  apply (events_of_raise (ListProducts category_id) w s
           [EvRequest (table_call (ListProducts category_id)); EvJsonLoads (content r)]).
  rewrite (run_after_response _ _ _ _ E), T. simpl on_success.
  unfold loads, for_in, mbind, M_bind, emit, lift. simpl. rewrite J. simpl.
  fold (@mbind M _).
  rewrite (for_each_stops ProductAdapter_display product_lines is_product
             before bad after e
             [py_str name +:+ " (ID: " +:+ py_str id +:+ ", Price: " +:+ py_str price +:+ ")"]).
  - unfold prints. simpl. now rewrite <- !app_assoc.
  - auto using ProductAdapter_display_lines.
  - intros w'. now apply ProductAdapter_display_partial.
  - exact G.
Qed.

Lemma for_in_no_list (body : value -> M unit) (v : value) w :
  (forall text w', body (VStr text) w' = (Raise TypeError, w')) ->
  (forall elements, v <> VList elements) ->
  (for_in v body w = (Ok tt, w) /\ (v = VDict [] \/ v = VStr ""))
  \/ (for_in v body w = (Raise TypeError, w) /\ v <> VDict [] /\ v <> VStr "").
Proof.
  intros B N. unfold for_in, mbind, M_bind, lift.
  destruct v as [| b | n | literal | text | elements | items]; simpl;
    try (right; repeat split; discriminate).
  - destruct text as [| c text]; simpl.
    + left. split; [reflexivity | now right].
    + right. unfold mbind, M_bind. rewrite B. repeat split; discriminate.
  - now destruct (N elements).
  - destruct items as [| [k x] items]; simpl.
    + left. split; [reflexivity | now left].
    + right. unfold mbind, M_bind. rewrite B. repeat split; discriminate.
Qed.

Lemma presenting_a_string_raises (display : value -> M unit) text w :
  (forall w', display (VStr text) w' = (Raise TypeError, w')) ->
  (display (VStr text);; print "") w = (Raise TypeError, w).
Proof. intros D. unfold mbind, M_bind. now rewrite D. Qed.

(** X11. What the two listing operations do when the body of a successful
    response decodes to something other than a list. An empty mapping and an
    empty string pass as an empty list. Every other value raises [TypeError]:
    None, a boolean or a number cannot be iterated, and a mapping or a string
    is iterated over its keys or characters, the first of which, a string,
    cannot be subscripted by the adapter. Nothing is printed in any of these
    cases. *)
Theorem listing_a_body_that_is_no_list (op : operation) (w : world server)
    (r : response) (s : server) (v : value) :
  op = ListCategories \/ (exists category_id, op = ListProducts category_id) ->
  transport (table_call op) (remote w) = (Ok r, s) ->
  ok r = true ->
  json_loads (content r) = Ok v ->
  (forall elements, v <> VList elements) ->
  printed (events_of op w) = []
  /\ (v = VDict [] \/ v = VStr "" -> fst (run op w) = Ok tt)
  /\ (v <> VDict [] -> v <> VStr "" -> fst (run op w) = Raise TypeError).
Proof.
  intros O E T J N.
  set (w2 := {| remote := s; stdin := stdin w;
                trace := trace w ++ [EvRequest (table_call op); EvJsonLoads (content r)] |}).
  assert (exists body,
             (forall text w', body (VStr text) w' = (Raise TypeError, w'))
             /\ run op w = for_in v body w2) as (body & B & R).
  { destruct O as [-> | [category_id ->]].
    - exists (fun category => CategoryAdapter_display category;; print "").
      split; [intros text w'; now apply presenting_a_string_raises |].
      rewrite (run_after_response _ _ _ _ E), T. simpl on_success.
      unfold loads, mbind, M_bind, emit, lift. simpl. rewrite J.
      subst w2. now rewrite <- app_assoc.
    - exists (fun product => ProductAdapter_display product;; print "").
      split; [intros text w'; now apply presenting_a_string_raises |].
      rewrite (run_after_response _ _ _ _ E), T. simpl on_success.
      unfold loads, mbind, M_bind, emit, lift. simpl. rewrite J.
      subst w2. now rewrite <- app_assoc. }
  assert (printed (drop (length (trace w)) (trace w2)) = []) as P.
  { subst w2. simpl. now rewrite drop_app_length. }
  unfold events_of. rewrite R.
  destruct (for_in_no_list body v w2 B N) as [[-> H] | [-> [H1 H2]]]; simpl.
  - split; [exact P |]. split; [reflexivity | intros H1 H2; tauto].
  - split; [exact P |]. split; [intros [H | H]; tauto | reflexivity].
Qed.

(** X12. When the response is taken for a success and its body decodes to a
    category record, show-category prints the two lines of the category, with
    no empty line after them, and returns. *)
Theorem show_category_presents_the_category (category_id : value) (w : world server)
    (r : response) (s : server) (c : value) :
  transport (table_call (ShowCategory category_id)) (remote w) = (Ok r, s) ->
  ok r = true ->
  json_loads (content r) = Ok c ->
  is_category c ->
  fst (show_category category_id w) = Ok tt
  /\ events_of (ShowCategory category_id) w
     = [EvRequest (table_call (ShowCategory category_id)); EvJsonLoads (content r)]
       ++ map EvPrint (category_lines c).
Proof.
  intros E T J G.
  assert (run (ShowCategory category_id) w
          = (Ok tt, prints (category_lines c)
                      {| remote := s; stdin := stdin w;
                         trace := trace w
                           ++ [EvRequest (table_call (ShowCategory category_id));
                               EvJsonLoads (content r)] |})) as R.
  { rewrite (run_after_response _ _ _ _ E), T. simpl on_success.
    unfold loads, mbind, M_bind, emit, lift. simpl. rewrite J.
    rewrite (CategoryAdapter_display_lines _ _ G).
    unfold prints. simpl. now rewrite <- !app_assoc. }
  split; [change (show_category category_id) with (run (ShowCategory category_id));
          now rewrite R |].
  exact (events_of_prints _ _ _ _ _ _ R).
Qed.

(** X13. When the response is taken for a success and its body decodes to a
    mapping with an id, create-product prints exactly one line,
    [Product created with ID: ] followed by the id, and returns. *)
Theorem create_product_reports_the_id (category_id name price description : value)
    (w : world server) (r : response) (s : server) (product id : value) :
  transport (table_call (CreateProduct category_id name price description)) (remote w)
  = (Ok r, s) ->
  ok r = true ->
  json_loads (content r) = Ok product ->
  subscript product "id" = Ok id ->
  fst (create_product category_id name price description w) = Ok tt
  /\ printed (events_of (CreateProduct category_id name price description) w)
     = ["Product created with ID: " +:+ py_str id].
Proof.
  intros E T J I.
  change (create_product category_id name price description)
    with (run (CreateProduct category_id name price description)).
  apply (events_of_return (CreateProduct category_id name price description) w s
           [EvRequest (table_call (CreateProduct category_id name price description));
            EvJsonLoads (content r)]).
  rewrite (run_after_response _ _ _ _ E), T. simpl on_success.
  unfold loads, mbind, M_bind, emit, lift. simpl. rewrite J, I.
  rewrite print_prints. unfold prints. simpl. now rewrite <- !app_assoc.
Qed.

(** X14. When the body of a successful response to create-category or
    create-product decodes to a value from which no id can be read (a mapping
    without the key, or no mapping at all), the operation raises the exception
    of the lookup after the decoding and prints nothing, although the service
    has answered with a success. *)
Theorem created_entity_without_an_id (op : operation) (w : world server)
    (r : response) (s : server) (v : value) (e : exn) :
  (exists title description, op = CreateCategory title description)
  \/ (exists category_id name price description,
        op = CreateProduct category_id name price description) ->
  transport (table_call op) (remote w) = (Ok r, s) ->
  ok r = true ->
  json_loads (content r) = Ok v ->
  subscript v "id" = Raise e ->
  fst (run op w) = Raise e
  /\ events_of op w = [EvRequest (table_call op); EvJsonLoads (content r)].
Proof.
  intros O E T J I.
  assert (run op w
          = (Raise e, {| remote := s; stdin := stdin w;
                         trace := trace w ++ [EvRequest (table_call op);
                                              EvJsonLoads (content r)] |})) as R.
  { rewrite (run_after_response _ _ _ _ E), T.
    destruct O as [(title & description & ->) | (id & name & price & description & ->)];
      simpl on_success; unfold loads, mbind, M_bind, emit, lift; simpl;
      rewrite J, I; now rewrite <- app_assoc. }
  split; [now rewrite R |].
  unfold events_of. rewrite R. simpl. apply drop_app_length.
Qed.

(** X15. The decorator runs the display it wraps and then prints one more
    line. Around the adapter of a category record that gives the two lines of
    the category and [Additional information...]. When the wrapped display
    raises, the decorator raises the same exception and does not print its
    line. *)
Theorem decorator_adds_a_line (inner : M unit) (c : value) (w : world server) :
  (is_category c ->
   CategoryDecorator_display (CategoryAdapter_display c) w
   = (Ok tt, prints (category_lines c ++ ["Additional information..."]) w))
  /\ (forall w', inner w = (Ok tt, w') ->
        CategoryDecorator_display inner w
        = (Ok tt, prints ["Additional information..."] w'))
  /\ (forall e w', inner w = (Raise e, w') ->
        CategoryDecorator_display inner w = (Raise e, w')).
Proof.
  unfold CategoryDecorator_display, CategoryDecorator_additional_info, mbind, M_bind.
  split; [| split].
  - intros G. rewrite (CategoryAdapter_display_lines _ _ G), print_prints.
    now rewrite prints_prints.
  - intros w' ->. now rewrite print_prints.
  - now intros e w' ->.
Qed.

(** ** More on the observation channel *)

Section ObserverExtras.

Context {listener : Type} `{EqDecision listener}.

Lemma list_remove_is_Some (x : listener) (l l' : list listener) :
  list_remove x l = Some l' -> l ≡ₚ x :: l'.
Proof.
  revert l'. induction l as [| y l IH]; intros l'; simpl; [discriminate |].
  destruct (decide (y = x)) as [-> | N].
  - intros R. now inversion R.
  - destruct (list_remove x l) as [rest |]; [| discriminate].
    intros R. inversion R; subst. rewrite (IH rest eq_refl). apply Permutation_swap.
Qed.

Lemma CategoryObserver_update_line (category title : value) w :
  subscript category "title" = Ok title ->
  CategoryObserver_update category w
  = (Ok tt, prints ["Category updated: " +:+ py_str title] w).
Proof.
  intros T. unfold CategoryObserver_update, mbind, M_bind, lift. now rewrite T.
Qed.

(** X16. A channel whose listeners are all instances of [CategoryObserver]
    prints [Category updated: ] and the title once for each attached listener,
    in one notification of a category that has a title. For a value from
    which no title can be read the first listener raises and nothing is
    printed; with no listener attached, [notify] returns whatever the value. *)
Theorem notify_category_observers (self : @ObservableCategory listener)
    (category : value) (w : world server) :
  (forall title, subscript category "title" = Ok title ->
     notify (fun _ => CategoryObserver_update) self category w
     = (Ok tt, prints (replicate (length (observers self))
                         ("Category updated: " +:+ py_str title)) w))
  /\ (forall e, subscript category "title" = Raise e -> observers self <> [] ->
        notify (fun _ => CategoryObserver_update) self category w = (Raise e, w))
  /\ (observers self = [] ->
        notify (fun _ => CategoryObserver_update) self category w = (Ok tt, w)).
Proof.
  unfold notify. split; [| split].
  - intros title T. generalize (observers self) as l. intros l. revert w.
    induction l as [| x l IH]; intros w; simpl.
    + now rewrite prints_nil.
    + unfold mbind, M_bind. rewrite (CategoryObserver_update_line _ _ w T).
      rewrite IH, prints_prints. reflexivity.
  - intros e T N. destruct (observers self) as [| x l]; [now destruct N |].
    simpl. unfold mbind, M_bind, CategoryObserver_update, lift. now rewrite T.
  - intros ->. reflexivity.
Qed.

(** X17. Attaching a listener and detaching it again gives the channel back
    when the listener was not attached before. When it was, [detach] removes
    the earlier occurrence and the new one stays at the end, so the listener
    moves behind the others. *)
Theorem attach_then_detach (self : @ObservableCategory listener) (l : listener) :
  (l ∉ observers self -> detach (attach self l) l = Ok self)
  /\ (l ∈ observers self ->
      exists before after,
        observers self = before ++ l :: after
        /\ (l ∉ before)
        /\ detach (attach self l) l = Ok {| observers := before ++ after ++ [l] |}).
Proof.
  split.
  - intros N. unfold detach, attach. simpl.
    rewrite (list_remove_first l (observers self) [] N), app_nil_r.
    now destruct self.
  - intros I. destruct (list_elem_of_split_l _ _ I) as (before & after & E & N).
    exists before, after. split; [exact E |]. split; [exact N |].
    unfold detach, attach. simpl. rewrite E, <- app_assoc. simpl.
    now rewrite (list_remove_first l before (after ++ [l]) N).
Qed.

(** X18. [detach] succeeds exactly when the listener is attached, and then it
    takes away one occurrence of it and nothing else: the listeners before
    are, up to their order, the detached listener and the listeners after, so
    there is one listener less. *)
Theorem detach_takes_one_occurrence (self : @ObservableCategory listener) (l : listener) :
  ((exists rest, detach self l = Ok rest) <-> l ∈ observers self)
  /\ (forall rest, detach self l = Ok rest ->
        observers self ≡ₚ l :: observers rest
        /\ length (observers self) = S (length (observers rest))).
Proof.
  assert (forall rest, detach self l = Ok rest -> observers self ≡ₚ l :: observers rest)
    as P.
  { intros rest. unfold detach.
    destruct (list_remove l (observers self)) as [l' |] eqn:R; [| discriminate].
    intros E. inversion E; subst. simpl. now apply list_remove_is_Some. }
  split.
  - split.
    + intros [rest R]. rewrite (P rest R). apply elem_of_cons. now left.
    + intros I. destruct (list_elem_of_split_l _ _ I) as (before & after & E & N).
      exists {| observers := before ++ after |}.
      unfold detach. now rewrite E, (list_remove_first _ _ _ N).
  - intros rest R. split; [exact (P rest R) |].
    now rewrite (Permutation_length (P rest R)).
Qed.

End ObserverExtras.

(** ** More on the menu loop *)

Lemma py_float_raises_ValueError text e : py_float text = Raise e -> e = ValueError.
Proof.
  unfold py_float, float_of_ascii. destruct (is_ascii text).
  - destruct (without_underscores None text) as [t |].
    + destruct (is_float_literal (strip t)); [discriminate | now intros [= <-]].
    + now intros [= <-].
  - destruct (float_of_unicode text); [discriminate | now intros [= <-]].
Qed.











(** X20. A price that [float] does not accept ends the program before the
    product's description is asked for and before anything is sent: the turn
    is the menu and the prompts for the choice, the category ID, the name and
    the price, and the exception, a [ValueError], leaves the loop. What [float]
    accepts in a text with characters outside ASCII is left to
    [float_of_unicode], so a price written in the digits of another script
    counts as rejected only where Python's [float] rejects it. *)
Theorem rejected_price_sends_nothing (w : world server)
    (category_id name text : string) (rest : list string) (e : exn) (fuel : nat) :
  stdin w = "6" :: category_id :: name :: text :: rest ->
  py_float text = Raise e ->
  e = ValueError
  /\ main_loop (S fuel) w
     = (Uncaught e,
        {| remote := remote w; stdin := rest;
           trace := trace w ++ menu
                      ++ [EvPrompt "Enter category ID: "; EvPrompt "Enter product name: ";
                          EvPrompt "Enter product price: "] |})
  /\ requests_in (menu ++ [EvPrompt "Enter category ID: "; EvPrompt "Enter product name: ";
                           EvPrompt "Enter product price: "]) = [].
Proof.
  intros S F. split; [exact (py_float_raises_ValueError _ _ F) |].
  split; [| reflexivity].
  simpl. rewrite (iteration_choice _ _ _ S).
  unfold dispatch, mbind, M_bind, input, lift. simpl. rewrite F.
  now rewrite <- !app_assoc.
Qed.

Lemma main_loop_unrecognized fuel (lines : list string) (w : world server) :
  stdin w = lines ->
  Forall (fun line => line ∉ selections) lines ->
  (length lines < fuel)%nat ->
  main_loop fuel w
  = (Uncaught EOFError,
     {| remote := remote w; stdin := [];
        trace := trace w
                   ++ concat (map (fun _ => menu ++ [EvPrint "Invalid choice. Please try again."])
                                lines)
                   ++ menu |}).
Proof.
  revert lines w. induction fuel as [| fuel IH]; intros lines w S U L; [lia |].
  simpl. destruct lines as [| choice rest].
  - now rewrite (iteration_end_of_input _ S).
  - inversion U as [| ? ? N U']; subst.
    rewrite (iteration_choice _ _ _ S), (dispatch_unrecognized _ _ N).
    rewrite (IH rest) by (simpl in *; (reflexivity || assumption || lia)).
    simpl. now rewrite <- !app_assoc.
Qed.

(** X21. When no line of the input is one of the choices [0] to [7], every
    line gets the menu and the invalid-choice message, then the menu is
    printed once more and the program ends with [EOFError] at the end of the
    input; the service is never called. *)
Theorem unrecognized_input_ends_with_EOFError (w : world server) :
  Forall (fun line => line ∉ selections) (stdin w) ->
  main w
  = (Uncaught EOFError,
     {| remote := remote w; stdin := [];
        trace := trace w
                   ++ concat (map (fun _ => menu ++ [EvPrint "Invalid choice. Please try again."])
                                (stdin w))
                   ++ menu |}).
Proof.
  intros U. unfold main. apply main_loop_unrecognized; [reflexivity | exact U | lia].
Qed.

Lemma stdin_after_run {A : Type} op (k : M A) w (l : list string) :
  quiet k -> stdin w = l -> stdin (snd ((run op;; k) w)) = l.
Proof.
  intros Q <-.
  assert (quiet (run op;; k)) as Q' by (apply quiet_bind; [apply quiet_run | now intros _]).
  apply Q'.
Qed.

Lemma bind_input {B : Type} prompt (f : string -> M B) w line rest :
  stdin w = line :: rest ->
  (input prompt ≫= f) w
  = f line {| remote := remote w; stdin := rest; trace := trace w ++ [EvPrompt prompt] |}.
Proof. intros S. unfold mbind, M_bind, input. now rewrite S. Qed.

Lemma bind_lift {A B : Type} (o : outcome A) (a : A) (f : A -> M B) w :
  o = Ok a -> (lift o ≫= f) w = f a w.
Proof. now intros ->. Qed.

(** X22. A turn reads the choice and then exactly the fields of the operation
    chosen, whatever becomes of the operation: one line for the choices 2, 4
    and 7, two for 3 and 5, four for 6 when the price is a number, and none
    for 1, for 0 and for a choice that is not recognized. *)
Theorem turn_reads_its_fields (w : world server) (choice : string)
    (fields rest : list string) :
  stdin w = choice :: fields ++ rest ->
  length fields = fields_read choice ->
  (choice = "6" -> forall text, fields !! 2%nat = Some text ->
                   exists price, py_float text = Ok price) ->
  stdin (snd (iteration w)) = rest.
Proof.
  intros S L P. rewrite (iteration_choice _ _ _ S).
  unfold fields_read in L. unfold dispatch. revert L P.
  destruct (String.eqb_spec choice "1") as [-> | _].
  { simpl. intros L _. destruct fields; [| discriminate L].
    apply (stdin_after_run ListCategories); [apply quiet_ret | reflexivity]. }
  destruct (String.eqb_spec choice "2") as [-> | _].
  { intros L _. destruct fields as [| a [| ? ?]]; try discriminate L.
    erewrite bind_input by reflexivity.
    apply (stdin_after_run (ShowCategory _)); [apply quiet_ret | reflexivity]. }
  destruct (String.eqb_spec choice "3") as [-> | _].
  { intros L _. destruct fields as [| a [| b [| ? ?]]]; try discriminate L.
    erewrite bind_input by reflexivity.
    erewrite bind_input by reflexivity.
    apply (stdin_after_run (CreateCategory _ _)); [apply quiet_ret | reflexivity]. }
  destruct (String.eqb_spec choice "4") as [-> | _].
  { intros L _. destruct fields as [| a [| ? ?]]; try discriminate L.
    erewrite bind_input by reflexivity.
    apply (stdin_after_run (DeleteCategory _)); [apply quiet_ret | reflexivity]. }
  destruct (String.eqb_spec choice "5") as [-> | _].
  { intros L _. destruct fields as [| a [| b [| ? ?]]]; try discriminate L.
    erewrite bind_input by reflexivity.
    erewrite bind_input by reflexivity.
    apply (stdin_after_run (ChangeCategoryTitle _ _)); [apply quiet_ret | reflexivity]. }
  destruct (String.eqb_spec choice "6") as [-> | _].
  { intros L P. destruct fields as [| a [| b [| c [| d [| ? ?]]]]]; try discriminate L.
    destruct (P eq_refl c eq_refl) as [price F].
    erewrite bind_input by reflexivity.
    erewrite bind_input by reflexivity.
    erewrite bind_input by reflexivity.
    erewrite bind_lift by exact F.
    erewrite bind_input by reflexivity.
    apply (stdin_after_run (CreateProduct _ _ _ _)); [apply quiet_ret | reflexivity]. }
  destruct (String.eqb_spec choice "7") as [-> | _].
  { intros L _. destruct fields as [| a [| ? ?]]; try discriminate L.
    erewrite bind_input by reflexivity.
    apply (stdin_after_run (ListProducts _)); [apply quiet_ret | reflexivity]. }
  intros L _. destruct fields; [| discriminate L].
  destruct (String.eqb choice "0"); reflexivity.
Qed.

(** ** The singleton *)

Lemma StoreClient_first_call (st : interpreter) :
  _instance st = None ->
  StoreClient st
  = (length (heap st),
     {| heap := heap st ++ [Some BASE_URL]; _instance := Some (length (heap st)) |}).
Proof.
  intros N. unfold StoreClient, StoreClient_new, StoreClient_init. rewrite N. simpl.
  rewrite insert_app_r_alt by lia.
  replace (length (heap st) - length (heap st))%nat with 0%nat by lia. reflexivity.
Qed.

Lemma StoreClient_later_call (st : interpreter) (obj : nat) :
  _instance st = Some obj ->
  StoreClient st
  = (obj, {| heap := <[obj := Some BASE_URL]> (heap st); _instance := Some obj |}).
Proof.
  intros I. unfold StoreClient, StoreClient_new, StoreClient_init.
  rewrite I. simpl. now rewrite I.
Qed.

(** X23. [StoreClient()] gives the same object however often it is called.
    The first call creates the object, the only one the class ever creates,
    and sets its [base_url] to the base URL; every later call returns that
    object and changes nothing. *)
Theorem StoreClient_is_a_singleton (st st1 st2 : interpreter) (first second : nat) :
  instance_exists st ->
  StoreClient st = (first, st1) ->
  StoreClient st1 = (second, st2) ->
  second = first
  /\ st2 = st1
  /\ _instance st1 = Some first
  /\ heap st1 !! first = Some (Some BASE_URL)
  /\ (_instance st = None -> heap st1 = heap st ++ [Some BASE_URL])
  /\ (_instance st <> None -> length (heap st1) = length (heap st)).
Proof.
  intros W C1 C2.
  assert (_instance st1 = Some first /\ heap st1 !! first = Some (Some BASE_URL)) as [I L].
  { unfold instance_exists in W. destruct (_instance st) as [obj |] eqn:E.
    - rewrite (StoreClient_later_call _ _ E) in C1. inversion C1; subst. simpl.
      split; [reflexivity | now apply list_lookup_insert_eq].
    - rewrite (StoreClient_first_call _ E) in C1. inversion C1; subst. simpl.
      split; [reflexivity | now apply list_lookup_middle]. }
  rewrite (StoreClient_later_call _ _ I), (list_insert_id _ _ _ L) in C2.
  inversion C2; subst.
  split; [reflexivity |]. split; [now destruct st1; simpl in *; subst |].
  split; [exact I |]. split; [exact L |]. split.
  - intros N. rewrite (StoreClient_first_call _ N) in C1. now inversion C1.
  - intros N. destruct (_instance st) as [obj |] eqn:E; [| now destruct N].
    rewrite (StoreClient_later_call _ _ E) in C1. inversion C1; subst. simpl.
    apply length_insert.
Qed.

End Client.

(** * Concrete runs *)

(** What [float] makes of some prices. *)
Example float_of_prices :
  map float_of_ascii ["12.50"; " 1_0.5e-3 "; ".5"; "-inf"; "abc"; ""; "1e"; "1__0"; "12,50"]
  = [ Ok (VFloat "12.50"); Ok (VFloat "10.5e-3"); Ok (VFloat ".5"); Ok (VFloat "-inf");
      Raise ValueError; Raise ValueError; Raise ValueError; Raise ValueError;
      Raise ValueError ].
Proof. reflexivity. Qed.

(** Status 404 on show-category: a failure. *)
Lemma failure_iff_status_400_to_599_witness :
  handled_as_failure (replying not_found) (decoding_to books) literal_repr
    (ShowCategory (VStr "3")) (start []) not_found
  /\ error_line (ShowCategory (VStr "3")) not_found = "Error fetching category: 404".
Proof.
  destruct (failure_iff_status_400_to_599 (replying not_found) (decoding_to books)
              literal_repr (ShowCategory (VStr "3")) (start []) not_found tt eq_refl)
    as [[_ F] [_ L]].
  split; [apply F; simpl; lia | exact L].
Defined.

(** Status 300 is outside 200..299, and show-category decodes the body and
    presents the category all the same. *)
Lemma status_300_is_handled_as_success :
  is_2xx (status_code multiple_choices) = false
  /\ events_of (replying multiple_choices) (decoding_to books) literal_repr
       (ShowCategory (VStr "3")) (start [])
     = [ EvRequest (requests_get "http://localhost:5000//categories/3");
         EvJsonLoads "the category, as JSON";
         EvPrint "Books (ID: 3)"; EvPrint "Novels and essays" ]
  /\ ~ handled_as_failure (replying multiple_choices) (decoding_to books) literal_repr
         (ShowCategory (VStr "3")) (start []) multiple_choices.
Proof.
  split; [reflexivity |]. split; [reflexivity |].
  unfold handled_as_failure. discriminate.
Qed.

(** Status 404 on show-category: one error line, nothing decoded. *)
Lemma decodes_only_on_success_witness :
  events_of (replying not_found) (decoding_to books) literal_repr
    (ShowCategory (VStr "3")) (start [])
  = [ EvRequest (requests_get "http://localhost:5000//categories/3");
      EvPrint "Error fetching category: 404" ]
  /\ occurs_in "404" "Error fetching category: 404".
Proof.
  destruct (decodes_only_on_success (replying not_found) (decoding_to books)
              literal_repr (ShowCategory (VStr "3")) (start []) not_found tt eq_refl)
    as [_ F].
  destruct (F eq_refl) as (_ & E & _ & O).
  split; [exact E | exact O].
Defined.

(** The category [Books] with id 3. *)
Lemma category_is_presented_on_two_lines_witness :
  exists first,
    CategoryAdapter_display literal_repr books (start [])
    = (Ok tt, prints [first; "Novels and essays"] (start []))
    /\ first = "Books (ID: 3)"
    /\ occurs_in "Books" first
    /\ occurs_in "3" first.
Proof.
  exact (category_is_presented_on_two_lines literal_repr books
           (VStr "Books") (VInt 3) (VStr "Novels and essays") (start [])
           eq_refl eq_refl eq_refl).
Defined.

(** A created category with id 7. *)
Lemma create_category_reports_the_id_witness :
  printed (events_of (replying created) (decoding_to new_category) literal_repr
             (CreateCategory (VStr "X") (VStr "Y")) (start []))
  = ["Category created with ID: 7"].
Proof.
  destruct (create_category_reports_the_id (replying created) (decoding_to new_category)
              literal_repr (VStr "X") (VStr "Y") (start []) created tt
              new_category (VInt 7) eq_refl eq_refl eq_refl eq_refl)
    as (_ & _ & _ & P).
  exact (P eq_refl).
Defined.

Lemma pen_and_ink_are_products : Forall (is_product) [pen; ink].
Proof.
  repeat constructor; eexists; reflexivity.
Qed.

(** Two products. *)
Lemma list_products_presents_in_order_witness :
  printed (events_of (replying found) (decoding_to (VList [pen; ink])) literal_repr
             (ListProducts (VStr "3")) (start []))
  = [ "Pen (ID: 1, Price: 1.5)"; "Blue ink"; "";
      "Ink (ID: 2, Price: 4)"; "One bottle"; "" ].
Proof.
  destruct (list_products_presents_in_order (replying found)
              (decoding_to (VList [pen; ink])) literal_repr (VStr "3") (start [])
              found tt [pen; ink] eq_refl eq_refl eq_refl pen_and_ink_are_products)
    as (_ & P & _).
  exact P.
Defined.

(** Two instances of [CategoryObserver], told apart by a number, on a new
    channel. *)
Lemma notify_in_attachment_order_witness :
  notify (fun _ : nat => CategoryObserver_update literal_repr)
    (attach (attach ObservableCategory_init 1%nat) 2%nat) books (start [])
  = (CategoryObserver_update literal_repr books;;
     CategoryObserver_update literal_repr books) (start [])
  /\ (exists rest,
        detach (attach (attach {| observers := [3%nat] |} 1%nat) 2%nat) 1%nat = Ok rest
        /\ observers rest = [3; 2]%nat).
Proof.
  destruct (notify_in_attachment_order (fun _ : nat => CategoryObserver_update literal_repr)
              {| observers := [3%nat] |} 1%nat 2%nat books (start []))
    as (N & _ & _ & D & _).
  split; [exact N |].
  destruct D as (rest & R & O & _).
  - simpl. rewrite not_elem_of_cons. split; [discriminate | apply not_elem_of_nil].
  - exists rest. split; [exact R | exact O].
Defined.

(** Listener 1 is attached already when it is attached again, followed by
    listener 2; each listener prints its number. One notification runs the
    update of listener 1 twice, and after detaching listener 1 the next
    notification still runs it, before listener 2. On a channel that has
    listener 3, the notification after detaching listener 1 runs listener 3
    and then listener 2. *)
Lemma attached_before_runs_twice_and_stays :
  printed (trace (snd (notify (fun (n : nat) (_ : value) => print (pretty n))
                         (attach (attach {| observers := [1%nat] |} 1%nat) 2%nat)
                         books (start []))))
  = ["1"; "1"; "2"]
  /\ detach (attach (attach {| observers := [1%nat] |} 1%nat) 2%nat) 1%nat
     = Ok {| observers := [1; 2]%nat |}
  /\ printed (trace (snd (notify (fun (n : nat) (_ : value) => print (pretty n))
                            {| observers := [1; 2]%nat |} books (start []))))
     = ["1"; "2"]
  /\ detach (attach (attach {| observers := [3%nat] |} 1%nat) 2%nat) 1%nat
     = Ok {| observers := [3; 2]%nat |}
  /\ printed (trace (snd (notify (fun (n : nat) (_ : value) => print (pretty n))
                            {| observers := [3; 2]%nat |} books (start []))))
     = ["3"; "2"].
Proof. repeat split. Qed.

(** A channel with the listeners 1, 2, 1: 3 is not attached, 1 is. *)
Lemma detach_removes_first_or_raises_witness :
  detach {| observers := [1; 2; 1]%nat |} 3%nat = Raise ValueError
  /\ exists before after,
       [1; 2; 1]%nat = before ++ 1%nat :: after
       /\ (1%nat ∉ before)
       /\ detach {| observers := [1; 2; 1]%nat |} 1%nat
          = Ok {| observers := before ++ after |}.
Proof.
  split.
  - apply (detach_removes_first_or_raises {| observers := [1; 2; 1]%nat |} 3%nat).
    simpl. rewrite !not_elem_of_cons. repeat split; try discriminate. apply not_elem_of_nil.
  - apply (detach_removes_first_or_raises {| observers := [1; 2; 1]%nat |} 1%nat).
    simpl. apply elem_of_cons. now left.
Defined.

(** The choice 6 with a price that is no number: [float] raises, nothing
    catches the exception and the loop ends, though [0] was never typed. *)
Lemma non_numeric_price_ends_the_loop :
  fst (main (replying not_found) (decoding_to VNone) literal_repr no_other_text
         (start ["6"; "1"; "Pen"; "abc"]))
  = Uncaught ValueError
  /\ "0" ∉ ["6"; "1"; "Pen"; "abc"].
Proof.
  split; [reflexivity |].
  rewrite !not_elem_of_cons. repeat split; try discriminate. apply not_elem_of_nil.
Qed.

(** An unknown choice, then [0]. *)
Lemma loop_breaks_only_on_choice_0_witness :
  main (replying not_found) (decoding_to VNone) literal_repr no_other_text (start ["9"; "0"; "1"])
  = (Exited,
     {| remote := tt; stdin := ["1"];
        trace := menu ++ [EvPrint "Invalid choice. Please try again."] ++ menu |}).
Proof.
  destruct (loop_breaks_only_on_choice_0 (replying not_found) (decoding_to VNone)
              literal_repr no_other_text (start ["9"; "0"; "1"])) as (_ & _ & _ & U & _).
  unfold main. simpl length.
  rewrite (U "9" ["0"; "1"] 3%nat eq_refl).
  - reflexivity.
  - unfold selections. rewrite !not_elem_of_cons.
    repeat split; try discriminate. apply not_elem_of_nil.
Defined.

(** ** Concrete runs of the further properties *)

(** The method in small letters. *)
Lemma unknown_method_builds_no_request_witness :
  create_request "http://localhost:5000//categories" "get" VNone = None
  /\ send (replying found) (create_request "http://localhost:5000//categories" "get" VNone)
       (start [])
     = (Raise AttributeError, start []).
Proof.
  destruct (unknown_method_builds_no_request (replying found) (decoding_to books)
              literal_repr no_other_text "http://localhost:5000//categories" "get" VNone (start []))
    as [C S].
  assert ("get" ∉ ["GET"; "POST"; "PATCH"; "DELETE"]) as N.
  { rewrite !not_elem_of_cons. repeat split; try discriminate. apply not_elem_of_nil. }
  split; [apply C, N | apply S, N].
Defined.

(** Show-category when the service cannot be reached. *)
Lemma transport_failure_is_raised_witness :
  fst (run unreachable (decoding_to books) literal_repr (ShowCategory (VStr "3")) (start []))
  = Raise RequestException
  /\ events_of unreachable (decoding_to books) literal_repr (ShowCategory (VStr "3")) (start [])
     = [EvRequest (requests_get "http://localhost:5000//categories/3")]
  /\ printed (events_of unreachable (decoding_to books) literal_repr
                (ShowCategory (VStr "3")) (start [])) = [].
Proof.
  exact (transport_failure_is_raised unreachable (decoding_to books) literal_repr
           (ShowCategory (VStr "3")) (start []) RequestException tt eq_refl).
Defined.

(** Create-product sends one POST with the three fields. *)
Lemma one_request_per_operation_witness :
  requests_in (events_of (replying created) (decoding_to pen) literal_repr
                 (CreateProduct (VStr "3") (VStr "Pen") (VFloat "1.5") (VStr "Blue ink"))
                 (start []))
  = [requests_post "http://localhost:5000//categories/3/products"
       (VDict [("name", VStr "Pen"); ("price", VFloat "1.5");
               ("description", VStr "Blue ink")])].
Proof.
  destruct (one_request_per_operation (replying created) (decoding_to pen) literal_repr
              (CreateProduct (VStr "3") (VStr "Pen") (VFloat "1.5") (VStr "Blue ink"))
              (start [])) as [R _].
  exact R.
Defined.

(** Show-category on a body that is no JSON. *)
Lemma decode_failure_is_raised_witness :
  fst (run (replying found) undecodable literal_repr (ShowCategory (VStr "3")) (start []))
  = Raise JSONDecodeError
  /\ events_of (replying found) undecodable literal_repr (ShowCategory (VStr "3")) (start [])
     = [EvRequest (requests_get "http://localhost:5000//categories/3");
        EvJsonLoads "the products, as JSON"]
  /\ printed (events_of (replying found) undecodable literal_repr
                (ShowCategory (VStr "3")) (start [])) = [].
Proof.
  exact (decode_failure_is_raised (replying found) undecodable literal_repr
           (ShowCategory (VStr "3")) (start []) found tt JSONDecodeError
           eq_refl eq_refl eq_refl eq_refl).
Defined.

(** Delete-category on a success, with a decoder that would raise. *)
Lemma confirming_operations_never_decode_witness :
  fst (run (replying found) undecodable literal_repr (DeleteCategory (VStr "3")) (start []))
  = Ok tt
  /\ events_of (replying found) undecodable literal_repr (DeleteCategory (VStr "3")) (start [])
     = [EvRequest (requests_delete "http://localhost:5000//categories/3");
        EvPrint "Category deleted"].
Proof.
  destruct (confirming_operations_never_decode (replying found) undecodable literal_repr
              (DeleteCategory (VStr "3")) "Category deleted" (start []) found tt
              eq_refl eq_refl) as (R & E & _).
  split; [exact R | exact E].
Defined.

(** A category without a title, and one without a description. *)
Lemma category_adapter_on_a_missing_field_witness :
  CategoryAdapter_display literal_repr untitled (start [])
  = (Raise (KeyError "title"), start [])
  /\ CategoryAdapter_display literal_repr undescribed_category (start [])
     = (Raise (KeyError "description"), prints ["Toys (ID: 4)"] (start [])).
Proof.
  split.
  - destruct (category_adapter_on_a_missing_field literal_repr untitled (start []))
      as (_ & T & _).
    exact (T _ eq_refl eq_refl).
  - destruct (category_adapter_on_a_missing_field literal_repr undescribed_category
                (start [])) as (_ & _ & _ & D).
    exact (D _ (VStr "Toys") (VInt 4) eq_refl eq_refl eq_refl eq_refl).
Defined.

(** The product [Pen]. *)
Lemma product_is_presented_on_two_lines_witness :
  ProductAdapter_display literal_repr pen (start [])
  = (Ok tt, prints ["Pen (ID: 1, Price: 1.5)"; "Blue ink"] (start [])).
Proof.
  destruct (product_is_presented_on_two_lines literal_repr pen (VStr "Pen") (VInt 1)
              (VFloat "1.5") (start []) eq_refl eq_refl eq_refl) as (P & _).
  exact (P (VStr "Blue ink") eq_refl).
Defined.

Lemma books_and_new_category_are_categories : Forall is_category [books; new_category].
Proof. repeat constructor; eexists; reflexivity. Qed.

Lemma books_is_a_category : Forall is_category [books].
Proof. repeat constructor; eexists; reflexivity. Qed.

Lemma pen_is_a_product : Forall is_product [pen].
Proof. repeat constructor; eexists; reflexivity. Qed.

(** Two categories. *)
Lemma list_categories_presents_in_order_witness :
  printed (events_of (replying found) (decoding_to (VList [books; new_category]))
             literal_repr ListCategories (start []))
  = ["Books (ID: 3)"; "Novels and essays"; ""; "X (ID: 7)"; "Y"; ""].
Proof.
  destruct (list_categories_presents_in_order (replying found)
              (decoding_to (VList [books; new_category])) literal_repr (start [])
              found tt [books; new_category] eq_refl eq_refl eq_refl
              books_and_new_category_are_categories) as [_ P].
  exact P.
Defined.

(** A category, then an element without a title, then another category. *)
Lemma list_categories_stops_at_a_bad_record_witness :
  fst (list_categories (replying found)
         (decoding_to (VList [books; untitled; new_category])) literal_repr (start []))
  = Raise (KeyError "title")
  /\ printed (events_of (replying found)
                (decoding_to (VList [books; untitled; new_category])) literal_repr
                ListCategories (start []))
     = ["Books (ID: 3)"; "Novels and essays"; ""].
Proof.
  exact (list_categories_stops_at_a_bad_record (replying found)
           (decoding_to (VList [books; untitled; new_category])) literal_repr (start [])
           found tt [books] untitled [new_category] (KeyError "title")
           eq_refl eq_refl eq_refl books_is_a_category eq_refl).
Defined.

(** A product, then one without a description, then another product. *)
Lemma list_products_stops_inside_a_bad_record_witness :
  fst (list_products (replying found)
         (decoding_to (VList [pen; undescribed_product; ink])) literal_repr
         (VStr "3") (start []))
  = Raise (KeyError "description")
  /\ printed (events_of (replying found)
                (decoding_to (VList [pen; undescribed_product; ink])) literal_repr
                (ListProducts (VStr "3")) (start []))
     = ["Pen (ID: 1, Price: 1.5)"; "Blue ink"; ""; "Cap (ID: 6, Price: 2)"].
Proof.
  exact (list_products_stops_inside_a_bad_record (replying found)
           (decoding_to (VList [pen; undescribed_product; ink])) literal_repr
           (VStr "3") (start []) found tt [pen] undescribed_product [ink]
           (VStr "Cap") (VInt 6) (VInt 2) (KeyError "description")
           eq_refl eq_refl eq_refl pen_is_a_product eq_refl eq_refl eq_refl eq_refl).
Defined.

Lemma books_is_no_list : forall elements, books <> VList elements.
Proof. intros elements. discriminate. Qed.

(** List-categories on a body that is one category instead of a list. *)
Lemma listing_a_body_that_is_no_list_witness :
  printed (events_of (replying found) (decoding_to books) literal_repr
             ListCategories (start [])) = []
  /\ fst (run (replying found) (decoding_to books) literal_repr ListCategories (start []))
     = Raise TypeError.
Proof.
  destruct (listing_a_body_that_is_no_list (replying found) (decoding_to books)
              literal_repr ListCategories (start []) found tt books
              (or_introl eq_refl) eq_refl eq_refl eq_refl books_is_no_list)
    as (P & _ & T).
  split; [exact P | apply T; discriminate].
Defined.

Lemma books_has_the_fields : is_category books.
Proof. repeat split; eexists; reflexivity. Qed.

(** Show-category on the category [Books]. *)
Lemma show_category_presents_the_category_witness :
  events_of (replying found) (decoding_to books) literal_repr
    (ShowCategory (VStr "3")) (start [])
  = [EvRequest (requests_get "http://localhost:5000//categories/3");
     EvJsonLoads "the products, as JSON";
     EvPrint "Books (ID: 3)"; EvPrint "Novels and essays"].
Proof.
  destruct (show_category_presents_the_category (replying found) (decoding_to books)
              literal_repr (VStr "3") (start []) found tt books
              eq_refl eq_refl eq_refl books_has_the_fields) as [_ E].
  exact E.
Defined.

(** A created product with id 1. *)
Lemma create_product_reports_the_id_witness :
  printed (events_of (replying created) (decoding_to pen) literal_repr
             (CreateProduct (VStr "3") (VStr "Pen") (VFloat "1.5") (VStr "Blue ink"))
             (start []))
  = ["Product created with ID: 1"].
Proof.
  destruct (create_product_reports_the_id (replying created) (decoding_to pen)
              literal_repr (VStr "3") (VStr "Pen") (VFloat "1.5") (VStr "Blue ink")
              (start []) created tt pen (VInt 1) eq_refl eq_refl eq_refl eq_refl)
    as [_ P].
  exact P.
Defined.

(** A success whose body has no id. *)
Lemma created_entity_without_an_id_witness :
  fst (run (replying created) (decoding_to acknowledged) literal_repr
         (CreateCategory (VStr "X") (VStr "Y")) (start []))
  = Raise (KeyError "id").
Proof.
  destruct (created_entity_without_an_id (replying created) (decoding_to acknowledged)
              literal_repr (CreateCategory (VStr "X") (VStr "Y")) (start []) created tt
              acknowledged (KeyError "id")
              (or_introl (ex_intro _ (VStr "X") (ex_intro _ (VStr "Y") eq_refl)))
              eq_refl eq_refl eq_refl eq_refl) as [R _].
  exact R.
Defined.

(** The decorated category [Books]. *)
Lemma decorator_adds_a_line_witness :
  CategoryDecorator_display (CategoryAdapter_display literal_repr books) (start [])
  = (Ok tt, prints ["Books (ID: 3)"; "Novels and essays"; "Additional information..."]
              (start [])).
Proof.
  destruct (decorator_adds_a_line literal_repr (CategoryAdapter_display literal_repr books)
              books (start [])) as [D _].
  exact (D books_has_the_fields).
Defined.

(** Three observers and the category [Books]. *)
Lemma notify_category_observers_witness :
  notify (fun _ : nat => CategoryObserver_update literal_repr)
    {| observers := [1; 2; 3]%nat |} books (start [])
  = (Ok tt, prints ["Category updated: Books"; "Category updated: Books";
                    "Category updated: Books"] (start [])).
Proof.
  destruct (notify_category_observers literal_repr {| observers := [1; 2; 3]%nat |}
              books (start [])) as [N _].
  exact (N (VStr "Books") eq_refl).
Defined.

(** Listener 2 moves behind listener 3; listener 4 comes and goes. *)
Lemma attach_then_detach_witness :
  detach (attach {| observers := [1; 2; 3]%nat |} 4%nat) 4%nat
  = Ok {| observers := [1; 2; 3]%nat |}
  /\ exists before after,
       [1; 2; 3]%nat = before ++ 2%nat :: after
       /\ (2%nat ∉ before)
       /\ detach (attach {| observers := [1; 2; 3]%nat |} 2%nat) 2%nat
          = Ok {| observers := before ++ after ++ [2%nat] |}.
Proof.
  split.
  - apply (attach_then_detach {| observers := [1; 2; 3]%nat |} 4%nat). simpl.
    rewrite !not_elem_of_cons. repeat split; try discriminate. apply not_elem_of_nil.
  - apply (attach_then_detach {| observers := [1; 2; 3]%nat |} 2%nat). simpl.
    rewrite !elem_of_cons. auto.
Defined.

(** Detaching listener 1 from 1, 2, 1. *)
Lemma detach_takes_one_occurrence_witness :
  length (observers {| observers := [1; 2; 1]%nat |})
  = S (length (observers {| observers := [2; 1]%nat |})).
Proof.
  destruct (detach_takes_one_occurrence {| observers := [1; 2; 1]%nat |} 1%nat)
    as [_ D].
  exact (proj2 (D {| observers := [2; 1]%nat |} eq_refl)).
Defined.



(** The price [abc]. *)
Lemma rejected_price_sends_nothing_witness :
  main_loop (replying created) (decoding_to pen) literal_repr no_other_text 1
    (start ["6"; "3"; "Pen"; "abc"; "Blue ink"; "0"])
  = (Uncaught ValueError,
     {| remote := tt; stdin := ["Blue ink"; "0"];
        trace := menu ++ [EvPrompt "Enter category ID: "; EvPrompt "Enter product name: ";
                          EvPrompt "Enter product price: "] |}).
Proof.
  destruct (rejected_price_sends_nothing (replying created) (decoding_to pen) literal_repr no_other_text
              (start ["6"; "3"; "Pen"; "abc"; "Blue ink"; "0"]) "3" "Pen" "abc"
              ["Blue ink"; "0"] ValueError 0 eq_refl eq_refl) as (_ & R & _).
  exact R.
Defined.

Lemma x_and_8_are_no_choices : Forall (fun line => line ∉ selections) ["x"; "8"].
Proof.
  repeat constructor; unfold selections; rewrite !not_elem_of_cons;
    repeat split; try discriminate; apply not_elem_of_nil.
Qed.

(** Two lines that are no choice. *)
Lemma unrecognized_input_ends_with_EOFError_witness :
  main (replying found) (decoding_to books) literal_repr no_other_text (start ["x"; "8"])
  = (Uncaught EOFError,
     {| remote := tt; stdin := [];
        trace := menu ++ [EvPrint "Invalid choice. Please try again."]
                 ++ menu ++ [EvPrint "Invalid choice. Please try again."] ++ menu |}).
Proof.
  exact (unrecognized_input_ends_with_EOFError (replying found) (decoding_to books)
           literal_repr no_other_text (start ["x"; "8"]) x_and_8_are_no_choices).
Defined.

(** Choice 3 reads the title and the description. *)
Lemma turn_reads_its_fields_witness :
  stdin (snd (iteration (replying created) (decoding_to new_category) literal_repr no_other_text
                (start ["3"; "X"; "Y"; "0"]))) = ["0"].
Proof.
  apply (turn_reads_its_fields (replying created) (decoding_to new_category) literal_repr no_other_text
           (start ["3"; "X"; "Y"; "0"]) "3" ["X"; "Y"] ["0"]).
  - reflexivity.
  - reflexivity.
  - discriminate.
Defined.

(** The first two calls in a run of the program. *)
Lemma StoreClient_is_a_singleton_witness :
  heap (snd (StoreClient at_import)) !! 0%nat = Some (Some BASE_URL)
  /\ snd (StoreClient (snd (StoreClient at_import))) = snd (StoreClient at_import).
Proof.
  destruct (StoreClient_is_a_singleton at_import
              (snd (StoreClient at_import))
              (snd (StoreClient (snd (StoreClient at_import))))
              0%nat 0%nat I eq_refl eq_refl) as (_ & E & _ & L & _).
  split; [exact L | exact E].
Defined.
